(** * OpenTutor web client: progress synchronisation and session persistence

    A shallow embedding of the two stateful pieces of the web client:

    - the knowledge page (the component [KnowledgePage]): the progress map it
      keeps per knowledge base, its mirror in [localStorage], the clean-up of
      stuck entries on mount, the registry of progress WebSockets and the
      [onmessage] handler of each socket;
    - the hook [useSolverSession] (web/hooks/useSolverSession.ts): the current
      solver session, its [localStorage] cache, [addMessage] with its offline
      fallback, [clearSession], and the [debounce] helper behind
      [debouncedSave].

    React state is modelled by explicit state passing: every handler takes the
    state and returns the state after its [setState] calls; where a callback
    reads a value that the render which built it has captured, that value is
    an argument of its own.
    An asynchronous handler is modelled as one step that receives the outcome
    of its [fetch] as an argument; two handlers never interleave.  The current
    time ([new Date().getTime()], [new Date().toISOString()]) is an argument of
    the handler that reads it.  JavaScript objects used as dictionaries are
    finite maps of the properties they have of their own; the order of their
    keys is not modelled, and where the code reads or assigns [obj[key]]
    through the prototype chain the definitions say so.

    The file has two parts: the embedding of the code, with the notions and
    the sample values of the statements; then the properties, each followed
    in the last modules by a worked example. *)

From Stdlib Require Import ZArith String Ascii List Bool Lia.
From stdpp Require Import base option list gmap strings fin_maps sorting pretty.

Local Open Scope string_scope.
Local Open Scope Z_scope.

(** ** JavaScript values the client computes with *)

Module Js.

(** The numbers the code compares: a time value is an integral number of
    milliseconds or [NaN] (an invalid date). *)
Inductive Num : Type :=
  | NaN
  | Fin (z : Z).

(** [a - b] *)
Definition sub (a b : Num) : Num :=
  match a, b with
  | Fin x, Fin y => Fin (x - y)
  | _, _ => NaN
  end.

(** [a > b]: false as soon as one side is [NaN]. *)
Definition gt (a b : Num) : bool :=
  match a, b with
  | Fin x, Fin y => y <? x
  | _, _ => false
  end.

(** [a < b]: false as soon as one side is [NaN]. *)
Definition lt (a b : Num) : bool :=
  match a, b with
  | Fin x, Fin y => x <? y
  | _, _ => false
  end.

(** [!a] on a number: [0] and [NaN] are the falsy numbers. *)
Definition falsy (a : Num) : bool :=
  match a with
  | NaN => true
  | Fin z => z =? 0
  end.

(** Truthiness of a string: every string but the empty one. *)
Definition truthy_string (s : string) : bool :=
  negb (String.eqb s "").

(** The largest magnitude of a time value (ECMAScript TimeClip). *)
Definition maxTime : Z := 8640000000000000.

Definition timeClip (z : Z) : Num :=
  if Z.abs z <=? maxTime then Fin z else NaN.

(** [Date.parse] on a string.  Its result outside the ISO format is left to
    the JavaScript engine, so it is an interface of the development. *)
Class DateImpl : Type := Date_parse : string -> Num.

(** A [timestamp] property as JSON can carry it. *)
Inductive Timestamp : Type :=
  | TsString (s : string)
  | TsNumber (n : Z).

Definition truthy_timestamp (t : Timestamp) : bool :=
  match t with
  | TsString s => truthy_string s
  | TsNumber n => negb (n =? 0)
  end.

(** [new Date(t).getTime()] *)
Definition Date_getTime `{DateImpl} (t : Timestamp) : Num :=
  match t with
  | TsString s => Date_parse s
  | TsNumber n => timeClip n
  end.

(** [[...names].sort()]: the default order of [sort] compares strings by
    their UTF-16 code units.  The strings of this development hold text as
    UTF-8.  On well-formed text the order of the code units is the order of
    the bytes, with one exception: the lead bytes [EE] and [EF] (U+E000 to
    U+FFFF, one code unit each, from [E000] on) come after the lead bytes
    [F0] to [F4] of the characters beyond U+FFFF, whose first code unit is a
    surrogate ([D800] to [DBFF]). *)
Definition unitRank (c : ascii) : N :=
  let n := N_of_ascii c in
  if ((n =? 238) || (n =? 239))%N then (n + 256)%N else n.

Fixpoint compare (a b : string) : comparison :=
  match a, b with
  | EmptyString, EmptyString => Eq
  | EmptyString, String _ _ => Lt
  | String _ _, EmptyString => Gt
  | String x a', String y b' =>
      match N.compare (unitRank x) (unitRank y) with
      | Eq => compare a' b'
      | Lt => Lt
      | Gt => Gt
      end
  end.

Definition string_le (a b : string) : Prop := compare a b ≠ Gt.

#[export] Instance string_le_dec (a b : string) : Decision (string_le a b).
Proof. unfold string_le. apply _. Defined.

Definition sort (names : list string) : list string :=
  merge_sort string_le names.

(** [names.join(",")] *)
Definition join (sep : string) (names : list string) : string :=
  String.concat sep names.

(** [Math.floor(a / k)] for a positive integer [k]. *)
Definition floorDiv (a : Num) (k : Z) : Num :=
  match a with
  | Fin z => Fin (z / k)
  | NaN => NaN
  end.

(** The text of a number inside a template literal. *)
Definition toString (a : Num) : string :=
  match a with
  | Fin z => pretty z
  | NaN => "NaN"
  end.

(** *** Plain objects used as dictionaries

    An object created by a literal inherits from [Object.prototype].  The
    maps of this development hold the properties an object has of its own;
    the two places where the prototype shows are reading and assigning
    [obj[key]]. *)

(** The properties of [Object.prototype]. *)
Definition objectPrototype : list string :=
  [ "constructor"; "__defineGetter__"; "__defineSetter__"; "hasOwnProperty";
    "__lookupGetter__"; "__lookupSetter__"; "isPrototypeOf";
    "propertyIsEnumerable"; "toString"; "valueOf"; "__proto__";
    "toLocaleString" ].

(** Reading [obj[key]] when [obj] has no property of its own under [key]
    gives [undefined], unless [key] names a property of [Object.prototype]:
    then it gives a function (the prototype itself for [__proto__]), which
    is truthy and has no [readyState]. *)
Definition inherited (key : string) : bool :=
  existsb (String.eqb key) objectPrototype.

(** [obj[key] = value] when [obj] has no property of its own under [key]
    creates the property, unless [key] is [__proto__]: [Object.prototype]
    defines it with a setter, so the assignment replaces the prototype of
    [obj] and creates nothing. *)
Definition assignCreates (key : string) : bool :=
  negb (String.eqb key "__proto__").

(** *** Integral numbers

    A number is a double.  [roundToDouble z] is the double nearest to the
    integer [z], ties going to the even significand; it is [z] itself up to
    [2^53].  (Magnitudes beyond the largest double are not met.) *)
Definition roundToDouble (z : Z) : Z :=
  let m := Z.abs z in
  if m <? 2 ^ 53 then z else
  let e := Z.log2 m - 52 in
  let q := Z.shiftr m e in
  let r := m - Z.shiftl q e in
  let half := Z.shiftl 1 (e - 1) in
  let q' := if (half <? r) || ((r =? half) && Z.odd q) then q + 1 else q in
  Z.sgn z * Z.shiftl q' e.

(** [a + b] on two integral numbers. *)
Definition add (a b : Z) : Z := roundToDouble (a + b).

(** *** [JSON.stringify] on a string: the text between double quotes, with
    the escapes of [QuoteJSONString]. *)

Definition doubleQuote : string := String "034"%char EmptyString.
Definition backslash : string := String "092"%char EmptyString.

Definition hexDigit (n : N) : string :=
  substring (N.to_nat n) 1 "0123456789abcdef".

Definition escape (c : ascii) : string :=
  let n := N_of_ascii c in
  if (n =? 8)%N then backslash ++ "b"
  else if (n =? 9)%N then backslash ++ "t"
  else if (n =? 10)%N then backslash ++ "n"
  else if (n =? 12)%N then backslash ++ "f"
  else if (n =? 13)%N then backslash ++ "r"
  else if (n =? 34)%N then backslash ++ doubleQuote
  else if (n =? 92)%N then backslash ++ backslash
  else if (n <? 32)%N then backslash ++ "u00" ++ hexDigit (n / 16) ++ hexDigit (n mod 16)
  else String c EmptyString.

Fixpoint escapeAll (s : string) : string :=
  match s with
  | EmptyString => EmptyString
  | String c rest => escape c ++ escapeAll rest
  end.

Definition quoteJSONString (s : string) : string :=
  doubleQuote ++ escapeAll s ++ doubleQuote.

End Js.

(** ** The ISO date-time format

    The one format whose parse ECMAScript fixes, and the one [toISOString]
    produces: [YYYY-MM-DDTHH:mm:ss.sssZ].  [isoDate] reads exactly that format
    and answers [NaN] on everything else; it is the [Date.parse] of the worked
    examples below. *)

Module IsoDate.

Definition digit (c : ascii) : option Z :=
  let n := Z.of_N (N_of_ascii c) in
  if (48 <=? n) && (n <=? 57) then Some (n - 48) else None.

Fixpoint digits (acc : Z) (cs : list ascii) : option Z :=
  match cs with
  | [] => Some acc
  | c :: cs' =>
      match digit c with
      | Some d => digits (10 * acc + d) cs'
      | None => None
      end
  end.

Definition number (s : string) : option Z :=
  digits 0 (list_ascii_of_string s).

Definition leap (y : Z) : bool :=
  ((y mod 4 =? 0) && negb (y mod 100 =? 0)) || (y mod 400 =? 0).

Definition daysInMonth (y m : Z) : Z :=
  if m =? 2 then (if leap y then 29 else 28)
  else if (m =? 4) || (m =? 6) || (m =? 9) || (m =? 11) then 30
  else 31.

(** Days from 1970-01-01 to the civil date [y-m-d]. *)
Definition daysFromCivil (y m d : Z) : Z :=
  let y' := if m <=? 2 then y - 1 else y in
  let era := y' / 400 in
  let yoe := y' - era * 400 in
  let mp := if 2 <? m then m - 3 else m + 9 in
  let doy := (153 * mp + 2) / 5 + d - 1 in
  let doe := yoe * 365 + yoe / 4 - yoe / 100 + doy in
  era * 146097 + doe - 719468.

Definition parse (s : string) : Js.Num :=
  if negb (Nat.eqb (String.length s) 24) then Js.NaN else
  if negb (String.eqb (substring 4 1 s) "-" && String.eqb (substring 7 1 s) "-"
           && String.eqb (substring 10 1 s) "T" && String.eqb (substring 13 1 s) ":"
           && String.eqb (substring 16 1 s) ":" && String.eqb (substring 19 1 s) "."
           && String.eqb (substring 23 1 s) "Z") then Js.NaN else
  match number (substring 0 4 s), number (substring 5 2 s),
        number (substring 8 2 s), number (substring 11 2 s),
        number (substring 14 2 s), number (substring 17 2 s),
        number (substring 20 3 s) with
  | Some y, Some m, Some d, Some hh, Some mm, Some ss, Some ms =>
      if (1 <=? m) && (m <=? 12) && (1 <=? d) && (d <=? daysInMonth y m)
         && (hh <=? 23) && (mm <=? 59) && (ss <=? 59)
      then Js.Fin ((((daysFromCivil y m d * 24 + hh) * 60 + mm) * 60 + ss) * 1000 + ms)
      else Js.NaN
  | _, _, _, _, _, _, _ => Js.NaN
  end.

End IsoDate.

Definition isoDate : Js.DateImpl := IsoDate.parse.

(** ** [localStorage]

    A string-keyed store.  What the code writes with [JSON.stringify] and reads
    back with [JSON.parse] is kept as the value itself.  [setItem] throws when
    the store refuses the write (quota exceeded, storage disabled); every
    caller wraps it in [try]/[catch] and only logs. *)

Module LocalStorage.

Record t (V : Type) : Type := mk {
  items : gmap string V;
  accepts : bool
}.
Arguments mk {V} _ _.
Arguments items {V} _.
Arguments accepts {V} _.

Definition getItem {V} (key : string) (ls : t V) : option V :=
  items ls !! key.

(** [None] is the thrown exception. *)
Definition setItem {V} (key : string) (v : V) (ls : t V) : option (t V) :=
  if accepts ls then Some (mk (<[key := v]> (items ls)) (accepts ls)) else None.

Definition removeItem {V} (key : string) (ls : t V) : t V :=
  mk (delete key (items ls)) (accepts ls).

(** [try { localStorage.setItem(key, JSON.stringify(v)) } catch (e) { log }] *)
Definition trySetItem {V} (key : string) (v : V) (ls : t V) : t V :=
  match setItem key v ls with
  | Some ls' => ls'
  | None => ls
  end.

End LocalStorage.

(** ** The knowledge page *)

Module KnowledgePage.

Record Rag : Type := {
  chunks : option Z;
  entities : option Z;
  relations : option Z
}.

Record Statistics : Type := {
  raw_documents : Z;
  images : Z;
  content_lists : Z;
  rag_initialized : bool;
  rag : option Rag
}.

Record KnowledgeBase : Type := {
  name : string;
  is_default : bool;
  statistics : Statistics
}.

(** [ProgressInfo], with the [timestamp] property the handlers read from the
    payload (the interface does not declare it).  [stage] is a free string in
    the source. *)
Record ProgressInfo : Type := {
  stage : string;
  message : string;
  current : Z;
  total : Z;
  file_name : option string;
  progress_percent : Z;
  error : option string;
  timestamp : option Js.Timestamp
}.

(** [progress.stage === "completed" || progress.stage === "error"] *)
Definition finished (progress : ProgressInfo) : bool :=
  String.eqb (stage progress) "completed" || String.eqb (stage progress) "error".

Definition thirtyMinutes : Z := 30 * 60 * 1000.
Definition fiveMinutes : Z := 5 * 60 * 1000.

(** The key of the progress map in [localStorage]. *)
Definition PROGRESS_KEY : string := "kb_progress_map".

Inductive ReadyState : Type := CONNECTING | OPEN | CLOSING | CLOSED.

#[export] Instance ReadyState_eq_dec : EqDecision ReadyState.
Proof. solve_decision. Defined.

(** A progress socket: its handlers close over the [kb] object of the listing
    that was current when the socket was created. *)
Record WebSocket : Type := {
  ws_kb : KnowledgeBase;
  readyState : ReadyState
}.

(** The state of the component that the modelled effects touch.  The two
    dictionaries hold the properties that the objects have of their own:
    what the spread [{...prev}], [Object.entries], [Object.keys], [delete]
    and [JSON.stringify] see. *)
Record Page : Type := {
  progressMap : gmap string ProgressInfo;
  localStorage : LocalStorage.t (gmap string ProgressInfo);
  wsConnectionsRef : gmap string WebSocket;
  kbsNamesRef : list string
}.

Definition initialPage (ls : LocalStorage.t (gmap string ProgressInfo)) : Page :=
  {| progressMap := ∅; localStorage := ls; wsConnectionsRef := ∅; kbsNamesRef := [] |}.

Section WithDate.
Context `{Js.DateImpl}.

(** *** Restore on mount (the first effect of the component) *)

(** The body of the [forEach] of the restore effect: does the entry go into
    [cleaned]? *)
Definition keptOnRestore (now : Z) (progress : ProgressInfo) : bool :=
  let noTimestamp := finished progress in
  match timestamp progress with
  | Some ts =>
      if Js.truthy_timestamp ts then
        let progressTime := Js.Date_getTime ts in
        let age := Js.sub (Js.Fin now) progressTime in
        String.eqb (stage progress) "completed"
        || String.eqb (stage progress) "error"
        || Js.lt age (Js.Fin thirtyMinutes)
      else noTimestamp
  | None => noTimestamp
  end.

(** The [forEach] over [Object.entries(parsed)], which fills [cleaned] by
    [cleaned[kbName] = progress].  [cleaned] starts as [{}]: an entry saved
    under the name [__proto__] is lost, for the assignment sets the prototype
    of [cleaned] instead of a property. *)
Definition cleanStuck (now : Z) (parsed : gmap string ProgressInfo)
  : gmap string ProgressInfo :=
  filter (fun entry => Is_true (Js.assignCreates entry.1 && keptOnRestore now entry.2))
    parsed.

(** The restore effect: nothing happens without a saved map; otherwise the
    cleaned map becomes the state and is written back.  A throwing [setItem]
    is caught by the enclosing [try] after [setProgressMap] was called. *)
Definition restoreProgress (now : Z) (pg : Page) : Page :=
  match LocalStorage.getItem PROGRESS_KEY (localStorage pg) with
  | Some parsed =>
      let cleaned := cleanStuck now parsed in
      {| progressMap := cleaned;
         localStorage := LocalStorage.trySetItem PROGRESS_KEY cleaned (localStorage pg);
         wsConnectionsRef := wsConnectionsRef pg;
         kbsNamesRef := kbsNamesRef pg |}
  | None => pg
  end.

(** *** The [onmessage] handler of a progress socket *)

(** What [JSON.parse(event.data)] gives: it throws, or it gives an object with
    a [type], and possibly [data] and [message]. *)
Record Payload : Type := {
  p_type : string;
  p_data : option ProgressInfo;
  p_message : option string
}.

Inductive MessageEvent : Type :=
  | Unparsable
  | Parsed (data : Payload).

(** The guard under [if (kb.statistics.rag_initialized)]: an update that is
    neither completed nor error, and whose time is falsy or more than five
    minutes before [now]. *)
Definition staleInProgress (now : Z) (progress : ProgressInfo) : bool :=
  let progressTime :=
    match timestamp progress with
    | Some ts => if Js.truthy_timestamp ts then Js.Date_getTime ts else Js.Fin 0
    | None => Js.Fin 0
    end in
  negb (String.eqb (stage progress) "completed")
  && negb (String.eqb (stage progress) "error")
  && (Js.falsy progressTime || Js.gt (Js.sub (Js.Fin now) progressTime) (Js.Fin fiveMinutes)).

(** The updater passed to [setProgressMap], with its write to [localStorage]. *)
Definition storeProgress (kbName : string) (progress : ProgressInfo) (pg : Page) : Page :=
  let updated := <[kbName := progress]> (progressMap pg) in
  {| progressMap := updated;
     localStorage := LocalStorage.trySetItem PROGRESS_KEY updated (localStorage pg);
     wsConnectionsRef := wsConnectionsRef pg;
     kbsNamesRef := kbsNamesRef pg |}.

(** [ws.onmessage], for the socket created for [kb].  A payload that does not
    parse, an [error] message and any other message are logged at most. *)
Definition onmessage (kb : KnowledgeBase) (now : Z) (event : MessageEvent) (pg : Page)
  : Page :=
  match event with
  | Unparsable => pg
  | Parsed data =>
      match p_data data with
      | Some progress =>
          if String.eqb (p_type data) "progress" then
            if rag_initialized (statistics kb) && staleInProgress now progress
            then pg
            else storeProgress (name kb) progress pg
          else pg
      | None => pg
      end
  end.

(** A socket receives a sequence of messages, each at its own time. *)
Definition receiveAll (kb : KnowledgeBase) (events : list (Z * MessageEvent)) (pg : Page)
  : Page :=
  fold_left (fun acc ev => onmessage kb ev.1 ev.2 acc) events pg.

(** A message on the socket registered for [kbName]. *)
Definition deliver (kbName : string) (now : Z) (event : MessageEvent) (pg : Page) : Page :=
  match wsConnectionsRef pg !! kbName with
  | Some ws => onmessage (ws_kb ws) now event pg
  | None => pg
  end.

End WithDate.

(** *** The registry of progress sockets *)

Inductive ChannelEvent : Type :=
  | Opened (kbName : string)
  | Closed (kbName : string).

(** [ws.readyState === WebSocket.OPEN || ws.readyState === WebSocket.CONNECTING] *)
Definition live (ws : WebSocket) : bool :=
  bool_decide (readyState ws = OPEN) || bool_decide (readyState ws = CONNECTING).

(** The calls to [ws.close()] made while walking over a set of sockets. *)
Definition closes (conns : gmap string WebSocket) : list ChannelEvent :=
  (fun entry => Closed entry.1) <$> filter (fun entry => Is_true (live entry.2)) (map_to_list conns).

(** The body of [kbs.forEach]: a socket is created unless
    [connections[kb.name] && connections[kb.name].readyState !== CLOSED].
    [connections] is a plain object: with no socket registered under a name
    that [Object.prototype] defines ([toString], [constructor], ...), the
    test reads the inherited property, which is truthy and has no
    [readyState], and no socket is created. *)
Definition connect (acc : gmap string WebSocket * list ChannelEvent) (kb : KnowledgeBase)
  : gmap string WebSocket * list ChannelEvent :=
  let fresh :=
    (<[name kb := {| ws_kb := kb; readyState := CONNECTING |}]> acc.1,
     (acc.2 ++ [Opened (name kb)])%list) in
  match acc.1 !! name kb with
  | Some ws => if bool_decide (readyState ws ≠ CLOSED) then acc else fresh
  | None => if Js.inherited (name kb) then acc else fresh
  end.

(** The effect that depends on [kbs] and [loading]. *)
Definition syncConnections (loading : bool) (kbs : list KnowledgeBase) (pg : Page)
  : Page * list ChannelEvent :=
  if loading then (pg, []) else
  let currentKbNamesStr := Js.join "," (Js.sort (name <$> kbs)) in
  let prevKbNamesStr := Js.join "," (Js.sort (kbsNamesRef pg)) in
  if String.eqb currentKbNamesStr prevKbNamesStr
     && negb (String.eqb currentKbNamesStr "")
     && bool_decide (0 < size (wsConnectionsRef pg))%nat
  then (pg, [])
  else if bool_decide (length kbs = 0%nat) then
    if bool_decide (0 < size (wsConnectionsRef pg))%nat then
      ({| progressMap := progressMap pg;
          localStorage := localStorage pg;
          wsConnectionsRef := ∅;
          kbsNamesRef := [] |},
       closes (wsConnectionsRef pg))
    else
      ({| progressMap := progressMap pg;
          localStorage := localStorage pg;
          wsConnectionsRef := wsConnectionsRef pg;
          kbsNamesRef := [] |}, [])
  else
    let wanted (entry : string * WebSocket) := entry.1 ∈ (name <$> kbs) in
    let dropped := filter (fun entry => ¬ wanted entry) (wsConnectionsRef pg) in
    let kept := filter wanted (wsConnectionsRef pg) in
    let opened := fold_left connect kbs (kept, []) in
    ({| progressMap := progressMap pg;
        localStorage := localStorage pg;
        wsConnectionsRef := opened.1;
        kbsNamesRef := name <$> kbs |},
     (closes dropped ++ opened.2)%list).

(** The browser moves a registered socket to another state (the handshake
    completes, the server closes, the transport fails); [onopen], [onerror]
    and [onclose] only log. *)
Definition socketState (kbName : string) (rs : ReadyState) (pg : Page) : Page :=
  {| progressMap := progressMap pg;
     localStorage := localStorage pg;
     wsConnectionsRef :=
       alter (fun ws => {| ws_kb := ws_kb ws; readyState := rs |}) kbName (wsConnectionsRef pg);
     kbsNamesRef := kbsNamesRef pg |}.

(** The clean-up on unmount. *)
Definition unmount (pg : Page) : Page * list ChannelEvent :=
  ({| progressMap := progressMap pg;
      localStorage := localStorage pg;
      wsConnectionsRef := ∅;
      kbsNamesRef := kbsNamesRef pg |},
   closes (wsConnectionsRef pg)).

(** *** Clearing progress *)

(** The updater of [clearProgress], with its write to [localStorage]; the
    request that follows, which asks the backend to clear its own record, is
    fire-and-forget. *)
Definition clearProgress (kbName : string) (pg : Page) : Page :=
  let updated := delete kbName (progressMap pg) in
  {| progressMap := updated;
     localStorage := LocalStorage.trySetItem PROGRESS_KEY updated (localStorage pg);
     wsConnectionsRef := wsConnectionsRef pg;
     kbsNamesRef := kbsNamesRef pg |}.

(** The updater of [clearAllStuckProgress] fills [cleaned] as the restore
    effect does, by [cleaned[kbName] = progress]. *)
Definition clearAllStuckProgress (pg : Page) : Page :=
  let cleaned :=
    filter (fun entry => Is_true (Js.assignCreates entry.1 && finished entry.2))
      (progressMap pg) in
  {| progressMap := cleaned;
     localStorage := LocalStorage.trySetItem PROGRESS_KEY cleaned (localStorage pg);
     wsConnectionsRef := wsConnectionsRef pg;
     kbsNamesRef := kbsNamesRef pg |}.

(** *** The effect that persists the progress map

    It runs after a render whose [progressMap] is new, and writes the map of
    that render. *)
Definition persistProgress (rendered : gmap string ProgressInfo) (pg : Page) : Page :=
  {| progressMap := progressMap pg;
     localStorage := LocalStorage.trySetItem PROGRESS_KEY rendered (localStorage pg);
     wsConnectionsRef := wsConnectionsRef pg;
     kbsNamesRef := kbsNamesRef pg |}.

(** *** The state updates of [handleCreate], after a successful creation *)

(** What the creation answers, as far as it is read: [result.name] and
    [result.files]. *)
Record CreateResult : Type := {
  r_name : string;
  r_files : option (list string)
}.

(** [newKb]; its document count is [result.files?.length || 0]. *)
Definition newKb (result : CreateResult) : KnowledgeBase :=
  {| name := r_name result;
     is_default := false;
     statistics :=
       {| raw_documents :=
            match r_files result with
            | Some files => Z.of_nat (length files)
            | None => 0
            end;
          images := 0; content_lists := 0; rag_initialized := false; rag := None |} |}.

(** The updater passed to [setKbs]. *)
Definition addIfMissing (kb : KnowledgeBase) (prev : list KnowledgeBase)
  : list KnowledgeBase :=
  if existsb (fun other => String.eqb (name other) (name kb)) prev
  then prev
  else kb :: prev.

(** The record with which the progress of a new knowledge base starts. *)
Definition initializing (nowIso : string) : ProgressInfo :=
  {| stage := "initializing";
     message := "Initializing knowledge base...";
     current := 0;
     total := 0;
     file_name := Some "";
     progress_percent := 0;
     error := None;
     timestamp := Some (Js.TsString nowIso) |}.

(** The updater passed to [setProgressMap] by [handleCreate]; it does not
    write to [localStorage] itself. *)
Definition startProgress (kbName : string) (nowIso : string) (pg : Page) : Page :=
  {| progressMap := <[kbName := initializing nowIso]> (progressMap pg);
     localStorage := localStorage pg;
     wsConnectionsRef := wsConnectionsRef pg;
     kbsNamesRef := kbsNamesRef pg |}.

Section Steps.
Context `{Js.DateImpl}.

(** *** Mounting

    The two effects of the first render run in order: the restore effect,
    then the persist effect, which belongs to the first render and so writes
    its empty map.  If the restore effect has set a map, the render that
    follows runs the persist effect again, on that map. *)
Definition mount (now : Z) (ls : LocalStorage.t (gmap string ProgressInfo)) : Page :=
  let first := initialPage ls in
  let restored := restoreProgress now first in
  let persisted := persistProgress (progressMap first) restored in
  match LocalStorage.getItem PROGRESS_KEY ls with
  | Some _ => persistProgress (progressMap persisted) persisted
  | None => persisted
  end.

(** *** What happens to a mounted page, as steps *)

Inductive PageAction : Type :=
  | Receive (kb : KnowledgeBase) (now : Z) (event : MessageEvent)
  | ClearProgress (kbName : string)
  | ClearAllStuck
  | StartProgress (kbName : string) (nowIso : string)
  | Sync (loading : bool) (kbs : list KnowledgeBase)
  | SocketState (kbName : string) (rs : ReadyState)
  | Unmount.

(** [StartProgress] is the update of [handleCreate] with the persist effect
    of the render that follows it; the other updates of the map write to the
    store themselves, and the persist effect repeats their write. *)
Definition pageStep (a : PageAction) (pg : Page) : Page :=
  match a with
  | Receive kb now event => onmessage kb now event pg
  | ClearProgress kbName => clearProgress kbName pg
  | ClearAllStuck => clearAllStuckProgress pg
  | StartProgress kbName nowIso =>
      persistProgress (progressMap (startProgress kbName nowIso pg))
        (startProgress kbName nowIso pg)
  | Sync loading kbs => (syncConnections loading kbs pg).1
  | SocketState kbName rs => socketState kbName rs pg
  | Unmount => (unmount pg).1
  end.

Definition pageRun (actions : list PageAction) (pg : Page) : Page :=
  fold_left (fun acc a => pageStep a acc) actions pg.

End Steps.

End KnowledgePage.

(** ** The hook [useSolverSession] *)

Module UseSolverSession.

Inductive Role : Type := user | assistant.

(** [output_dir?: string | null]: the property is missing, [null] or a
    string. *)
Inductive OutputDir : Type :=
  | DirAbsent
  | DirNull
  | DirString (d : string).

(** A message, with its properties in the order of the interface. *)
Record SolverMessage : Type := {
  role : Role;
  content : string;
  output_dir : OutputDir;
  timestamp : option string
}.

#[export] Instance Role_eq_dec : EqDecision Role.
Proof. solve_decision. Defined.

(** [JSON.stringify(messages)]: a missing property is left out, [null] is
    written. *)
Definition roleText (r : Role) : string :=
  match r with
  | user => "user"
  | assistant => "assistant"
  end.

Definition property (key value : string) : string :=
  Js.quoteJSONString key ++ ":" ++ value.

Definition stringifyMessage (m : SolverMessage) : string :=
  "{" ++ property "role" (Js.quoteJSONString (roleText (role m)))
  ++ "," ++ property "content" (Js.quoteJSONString (content m))
  ++ match output_dir m with
     | DirAbsent => ""
     | DirNull => "," ++ property "output_dir" "null"
     | DirString d => "," ++ property "output_dir" (Js.quoteJSONString d)
     end
  ++ match timestamp m with
     | None => ""
     | Some t => "," ++ property "timestamp" (Js.quoteJSONString t)
     end
  ++ "}".

Definition JSON_stringify (messages : list SolverMessage) : string :=
  "[" ++ Js.join "," (stringifyMessage <$> messages) ++ "]".

(** The counters are integral JavaScript numbers; the hook copies them, and
    adds 1 to [message_count]. *)
Record TokenStats : Type := {
  model : string;
  calls : Z;
  tokens : Z;
  input_tokens : Z;
  output_tokens : Z;
  cost : Z
}.

Record SolverSession : Type := {
  id : string;
  title : string;
  knowledge_base : string;
  messages : list SolverMessage;
  token_stats : TokenStats;
  created_at : string;
  updated_at : string;
  is_active : bool;
  message_count : Z
}.

Definition STORAGE_KEY : string := "deeptutor-solver-session".

(** The default of the option [debounceMs]. *)
Definition defaultDebounceMs : Z := 1000.

(** The requests the hook sends; [path] is the argument of [apiUrl]. *)
Inductive Body : Type :=
  | MessageBody (r : Role) (c : string) (dir : option string)
  | SessionBody (t : string) (kb : string).

Record Request : Type := {
  method : string;
  path : string;
  body : Body
}.

(** What [await response.json()] gives. *)
Inductive Json : Type :=
  | JsonThrows
  | JsonNull
  | JsonSession (data : SolverSession).

(** What [await fetch(...)] gives: it throws, or it resolves to a response. *)
Inductive FetchOutcome : Type :=
  | FetchThrows
  | Response (ok : bool) (json : Json).

(** A pending [setTimeout(() => func(...args), wait)] of [debounce]. *)
Record Timer : Type := {
  handle : positive;
  due : Z;
  args : SolverSession
}.

(** The state of the hook, the timers of the event loop it has set, and the
    log of the requests it has sent.  [lastMessagesRef] holds the text that
    [JSON.stringify] gave for a message list, or the empty string; [timeout]
    is the variable captured by the closure of [debounce]. *)
Record Hook : Type := {
  session : option SolverSession;
  isLoading : bool;
  error : option string;
  lastMessagesRef : string;
  localStorage : LocalStorage.t SolverSession;
  clock : Z;
  nextHandle : positive;
  timers : list Timer;
  timeout : option positive;
  requests : list Request
}.

Definition initialHook (ls : LocalStorage.t SolverSession) (now : Z) : Hook :=
  {| session := None; isLoading := true; error := None; lastMessagesRef := "";
     localStorage := ls; clock := now; nextHandle := 1%positive; timers := [];
     timeout := None; requests := [] |}.

(** *** Updates of one field of the state *)

Definition setSession (s : option SolverSession) (h : Hook) : Hook :=
  {| session := s; isLoading := isLoading h; error := error h;
     lastMessagesRef := lastMessagesRef h; localStorage := localStorage h;
     clock := clock h; nextHandle := nextHandle h; timers := timers h;
     timeout := timeout h; requests := requests h |}.

Definition setLastMessages (m : string) (h : Hook) : Hook :=
  {| session := session h; isLoading := isLoading h; error := error h;
     lastMessagesRef := m; localStorage := localStorage h;
     clock := clock h; nextHandle := nextHandle h; timers := timers h;
     timeout := timeout h; requests := requests h |}.

Definition setStorage (ls : LocalStorage.t SolverSession) (h : Hook) : Hook :=
  {| session := session h; isLoading := isLoading h; error := error h;
     lastMessagesRef := lastMessagesRef h; localStorage := ls;
     clock := clock h; nextHandle := nextHandle h; timers := timers h;
     timeout := timeout h; requests := requests h |}.

Definition send (r : Request) (h : Hook) : Hook :=
  {| session := session h; isLoading := isLoading h; error := error h;
     lastMessagesRef := lastMessagesRef h; localStorage := localStorage h;
     clock := clock h; nextHandle := nextHandle h; timers := timers h;
     timeout := timeout h; requests := (requests h ++ [r])%list |}.

(** *** The cache *)

Definition loadFromCache (h : Hook) : option SolverSession :=
  LocalStorage.getItem STORAGE_KEY (localStorage h).

Definition saveToCache (s : SolverSession) (h : Hook) : Hook :=
  setStorage (LocalStorage.trySetItem STORAGE_KEY s (localStorage h)) h.

Definition clearCache (h : Hook) : Hook :=
  setStorage (LocalStorage.removeItem STORAGE_KEY (localStorage h)) h.

(** *** [addMessage] *)

(** [outputDir || null] *)
Definition orNull (outputDir : option string) : OutputDir :=
  match outputDir with
  | Some d => if Js.truthy_string d then DirString d else DirNull
  | None => DirNull
  end.

(** The session built in the [catch] block. *)
Definition updatedSession (s : SolverSession) (r : Role) (c : string)
    (outputDir : option string) (nowIso : string) : SolverSession :=
  {| id := id s; title := title s; knowledge_base := knowledge_base s;
     messages := (messages s ++
       [ {| role := r; content := c; output_dir := orNull outputDir;
            timestamp := Some nowIso |} ])%list;
     token_stats := token_stats s; created_at := created_at s;
     updated_at := updated_at s; is_active := is_active s;
     message_count := Js.add (message_count s) 1 |}.

(** The request of [addMessage]. *)
Definition appendRequest (s : SolverSession) (r : Role) (c : string)
    (outputDir : option string) : Request :=
  {| method := "POST";
     path := "/api/v1/solver/sessions/" ++ id s ++ "/messages";
     body := MessageBody r c outputDir |}.

(** [addMessage(role, content, outputDir)], with the outcome of its [fetch]
    and the value of [new Date().toISOString()].  The callback is built by
    [useCallback] with the dependencies [session] and [saveToCache]: the
    [session] it reads is [captured], the session of the render that built
    it, which is the session of the hook only as long as no update has
    happened since.  Every way out of the [try] block other than the
    [return data] lands in the [catch] block: a throwing [fetch], a response
    that is not [ok], a body that does not parse, and a [null] body (a
    [TypeError] on [data.messages], after writes that the [catch] block
    overwrites). *)
Definition addMessage (captured : option SolverSession) (r : Role) (c : string)
    (outputDir : option string) (outcome : FetchOutcome) (nowIso : string) (h : Hook)
  : Hook * option SolverSession :=
  match captured with
  | None => (h, None)
  | Some s =>
      let sent := send (appendRequest s r c outputDir) h in
      match outcome with
      | Response true (JsonSession data) =>
          (setLastMessages (JSON_stringify (messages data))
             (saveToCache data (setSession (Some data) sent)),
           Some data)
      | _ =>
          let updated := updatedSession s r c outputDir nowIso in
          (saveToCache updated (setSession (Some updated) sent), Some updated)
      end
  end.

(** The effect that follows a render: [autoSave] and a session whose
    messages, as text, differ from [lastMessagesRef]. *)
Definition autoSaveEffect (autoSave : bool) (h : Hook) : Hook :=
  match session h with
  | Some s =>
      let currentMessages := JSON_stringify (messages s) in
      if autoSave && negb (String.eqb currentMessages (lastMessagesRef h))
      then setLastMessages currentMessages (saveToCache s h)
      else h
  | None => h
  end.

(** *** [clearSession] *)

Definition clearSession (h : Hook) : Hook :=
  setLastMessages "" (setSession None (clearCache h)).

(** *** Timers and [debounce] *)

(** Pending timers are kept in the order in which they fire: by due time, and
    in the order of their creation when due together. *)
Fixpoint enqueue (t : Timer) (pending : list Timer) : list Timer :=
  match pending with
  | [] => [t]
  | p :: rest => if due p <=? due t then p :: enqueue t rest else t :: p :: rest
  end.

Definition setTimers (ts : list Timer) (next : positive) (h : Hook) : Hook :=
  {| session := session h; isLoading := isLoading h; error := error h;
     lastMessagesRef := lastMessagesRef h; localStorage := localStorage h;
     clock := clock h; nextHandle := next; timers := ts;
     timeout := timeout h; requests := requests h |}.

(** [setTimeout(() => func(...args), wait)]: a negative delay counts as 0. *)
Definition setTimeout (a : SolverSession) (wait : Z) (h : Hook) : positive * Hook :=
  let t := {| handle := nextHandle h; due := clock h + Z.max 0 wait; args := a |} in
  (nextHandle h, setTimers (enqueue t (timers h)) (Pos.succ (nextHandle h)) h).

(** [clearTimeout(handle)]: nothing happens for a timer that has fired. *)
Definition clearTimeout (hd : positive) (h : Hook) : Hook :=
  setTimers (filter (fun t => handle t ≠ hd) (timers h)) (nextHandle h) h.

Definition setTimeoutVar (v : option positive) (h : Hook) : Hook :=
  {| session := session h; isLoading := isLoading h; error := error h;
     lastMessagesRef := lastMessagesRef h; localStorage := localStorage h;
     clock := clock h; nextHandle := nextHandle h; timers := timers h;
     timeout := v; requests := requests h |}.

(** The request of the auto-save. *)
Definition saveRequest (sessionToSave : SolverSession) : Request :=
  {| method := "PUT";
     path := "/api/v1/solver/sessions/" ++ id sessionToSave;
     body := SessionBody (title sessionToSave) (knowledge_base sessionToSave) |}.

(** The function wrapped by [debounce] in [debouncedSave]: one [PUT] of the
    title and the knowledge base, unless the session has no id.  The outcome
    of the [fetch] is only logged. *)
Definition func (sessionToSave : SolverSession) (h : Hook) : Hook :=
  if negb (Js.truthy_string (id sessionToSave)) then h
  else send (saveRequest sessionToSave) h.

(** The function returned by [debounce(func, wait)]:
    [if (timeout) clearTimeout(timeout); timeout = setTimeout(..., wait)]. *)
Definition debounced (wait : Z) (a : SolverSession) (h : Hook) : Hook :=
  let h1 := match timeout h with
            | Some hd => clearTimeout hd h
            | None => h
            end in
  let '(hd, h2) := setTimeout a wait h1 in
  setTimeoutVar (Some hd) h2.

Definition debouncedSave (debounceMs : Z) (sessionToSave : SolverSession) (h : Hook) : Hook :=
  debounced debounceMs sessionToSave h.

Definition setClock (t : Z) (h : Hook) : Hook :=
  {| session := session h; isLoading := isLoading h; error := error h;
     lastMessagesRef := lastMessagesRef h; localStorage := localStorage h;
     clock := t; nextHandle := nextHandle h; timers := timers h;
     timeout := timeout h; requests := requests h |}.

(** The event loop runs until time [t]: the timers due by then fire in order,
    the others stay pending. *)
Definition elapse (t : Z) (h : Hook) : Hook :=
  let fired := filter (fun tm => due tm ≤ t) (timers h) in
  let pending := filter (fun tm => ¬ due tm ≤ t) (timers h) in
  fold_left (fun acc tm => func (args tm) acc) fired
    (setClock (Z.max (clock h) t) (setTimers pending (nextHandle h) h)).

(** The event loop up to a task that starts at time [t]: the timers due
    before [t] have fired.  A timer due at [t] itself is still pending: no
    timer fires inside the running task, so a timer that the task has set
    with no delay, due at once, is there for the task to clear. *)
Definition reach (t : Z) (h : Hook) : Hook :=
  let fired := filter (fun tm => due tm < t) (timers h) in
  let pending := filter (fun tm => ¬ due tm < t) (timers h) in
  fold_left (fun acc tm => func (args tm) acc) fired
    (setClock (Z.max (clock h) t) (setTimers pending (nextHandle h) h)).

(** A call of [debouncedSave] at time [t]. *)
Definition saveAt (debounceMs : Z) (call : Z * SolverSession) (h : Hook) : Hook :=
  debouncedSave debounceMs call.2 (reach call.1 h).

Definition savesAt (debounceMs : Z) (calls : list (Z * SolverSession)) (h : Hook) : Hook :=
  fold_left (fun acc call => saveAt debounceMs call acc) calls h.

(** Calls that follow one another within the quiet period: each comes less
    than the delay after the one before. *)
Fixpoint quiet (debounceMs : Z) (prev : Z) (calls : list (Z * SolverSession)) : Prop :=
  match calls with
  | [] => True
  | call :: rest =>
      prev ≤ call.1 ∧ call.1 < prev + Z.max 0 debounceMs ∧ quiet debounceMs call.1 rest
  end.

(** *** [loadActiveSession], [createSession], [deleteSession]

    The [GET], [POST] and [DELETE] of these three carry nothing the hook
    computes; their outcome is an argument and they are not kept in
    [requests]. *)

Definition setIsLoading (b : bool) (h : Hook) : Hook :=
  {| session := session h; isLoading := b; error := error h;
     lastMessagesRef := lastMessagesRef h; localStorage := localStorage h;
     clock := clock h; nextHandle := nextHandle h; timers := timers h;
     timeout := timeout h; requests := requests h |}.

Definition setError (e : option string) (h : Hook) : Hook :=
  {| session := session h; isLoading := isLoading h; error := e;
     lastMessagesRef := lastMessagesRef h; localStorage := localStorage h;
     clock := clock h; nextHandle := nextHandle h; timers := timers h;
     timeout := timeout h; requests := requests h |}.

(** [setSession(data); saveToCache(data); lastMessagesRef.current =
    JSON.stringify(data.messages)], the three lines shared by the successful
    paths. *)
Definition adopt (data : SolverSession) (h : Hook) : Hook :=
  setLastMessages (JSON_stringify (messages data))
    (saveToCache data (setSession (Some data) h)).

(** [const cached = loadFromCache(); if (cached) { setSession(cached);
    lastMessagesRef.current = ...; return cached; }], followed by what the
    caller does without a cached session. *)
Definition fallBack (h : Hook) (otherwise : Hook) : Hook * option SolverSession :=
  match loadFromCache h with
  | Some cached =>
      (setLastMessages (JSON_stringify (messages cached)) (setSession (Some cached) h),
       Some cached)
  | None => (otherwise, None)
  end.

(** [loadActiveSession()].  A body that is [null], and a response that is not
    [ok], lead to the cache and, without a cached session, to
    [setSession(null)]; a throwing [fetch] or [json()] leads to the [catch]
    block, which sets the error, tries the cache and leaves the session alone
    without a cached one.  [finally] resets [isLoading]. *)
Definition loadActiveSession (outcome : FetchOutcome) (h : Hook)
  : Hook * option SolverSession :=
  let started := setError None (setIsLoading true h) in
  let failed := setError (Some "Failed to load session") started in
  let done :=
    match outcome with
    | Response true (JsonSession data) => (adopt data started, Some data)
    | Response true JsonNull => fallBack started (setSession None started)
    | Response false _ => fallBack started (setSession None started)
    | Response true JsonThrows => fallBack failed failed
    | FetchThrows => fallBack failed failed
    end in
  (setIsLoading false done.1, done.2).

(** [saveToCache(null)]: the item becomes the text [null], which
    [loadFromCache] reads back as [null], its answer for a missing item; the
    write is modelled as the removal of the item.  A store that refuses the
    write keeps the item. *)
Definition saveNullToCache (h : Hook) : Hook :=
  if LocalStorage.accepts (localStorage h) then clearCache h else h.

(** [createSession(knowledgeBase)].  A [null] body passes [setSession] and
    [saveToCache] before [data.messages] throws. *)
Definition createSession (knowledgeBase : string) (outcome : FetchOutcome) (h : Hook)
  : Hook * option SolverSession :=
  match outcome with
  | Response true (JsonSession data) => (adopt data h, Some data)
  | Response true JsonNull =>
      (setError (Some "Failed to create session") (saveNullToCache (setSession None h)),
       None)
  | _ => (setError (Some "Failed to create session") h, None)
  end.

(** [deleteSession(sessionId)]: the body of the response is not read.  As
    in [addMessage], the [session] that [session?.id === sessionId] reads is
    the one [captured] by the callback. *)
Definition deleteSession (captured : option SolverSession) (sessionId : string)
    (outcome : FetchOutcome) (h : Hook)
  : Hook * bool :=
  match outcome with
  | Response true _ =>
      match captured with
      | Some s =>
          if String.eqb (id s) sessionId
          then (setSession None (clearCache h), true)
          else (h, true)
      | None => (h, true)
      end
  | _ => (h, false)
  end.

(** *** The operations of the hook as steps

    [addMessage] and [deleteSession] are called through the callback of any
    render, the latest or an earlier one: the step carries the session that
    the callback has captured. *)

Inductive Action : Type :=
  | LoadActive (outcome : FetchOutcome)
  | Create (knowledgeBase : string) (outcome : FetchOutcome)
  | AddMessage (captured : option SolverSession) (r : Role) (c : string)
      (outputDir : option string) (outcome : FetchOutcome) (nowIso : string)
  | ClearSession
  | DeleteSession (captured : option SolverSession) (sessionId : string)
      (outcome : FetchOutcome)
  | AutoSave (autoSave : bool)
  | DebouncedSave (debounceMs : Z) (sessionToSave : SolverSession)
  | Elapse (t : Z).

Definition step (a : Action) (h : Hook) : Hook :=
  match a with
  | LoadActive outcome => (loadActiveSession outcome h).1
  | Create knowledgeBase outcome => (createSession knowledgeBase outcome h).1
  | AddMessage captured r c outputDir outcome nowIso =>
      (addMessage captured r c outputDir outcome nowIso h).1
  | ClearSession => clearSession h
  | DeleteSession captured sessionId outcome =>
      (deleteSession captured sessionId outcome h).1
  | AutoSave autoSave => autoSaveEffect autoSave h
  | DebouncedSave debounceMs sessionToSave => debouncedSave debounceMs sessionToSave h
  | Elapse t => elapse t h
  end.

Definition run (actions : list Action) (h : Hook) : Hook :=
  fold_left (fun acc a => step a acc) actions h.

(** Calls that are not within the quiet period of one another: each comes
    after the timer of the one before was due. *)
Fixpoint spaced (debounceMs : Z) (prev : Z) (calls : list (Z * SolverSession)) : Prop :=
  match calls with
  | [] => True
  | call :: rest => prev + Z.max 0 debounceMs < call.1 ∧ spaced debounceMs call.1 rest
  end.

(** *** What a component can do with the hook

    It can call what the hook returns, the state setter [setSession] among
    it, and let time pass; the effects run after its renders.
    [debouncedSave] is defined in the hook, but the hook neither calls it nor
    returns it.  ([updateTokenStats], which the hook returns too, sends one
    request and touches no state; it is left out.) *)
Inductive Use : Type :=
  | Call (a : Action)
  | SetSession (s : option SolverSession).

Definition offered (u : Use) : bool :=
  match u with
  | Call (DebouncedSave _ _) => false
  | _ => true
  end.

Definition use (u : Use) (h : Hook) : Hook :=
  match u with
  | Call a => step a h
  | SetSession s => setSession s h
  end.

Definition uses (us : list Use) (h : Hook) : Hook :=
  fold_left (fun acc u => use u acc) us h.

End UseSolverSession.

(** ** The sidebar [SessionHistory] *)

Module SessionHistory.

Record Session : Type := {
  id : string;
  title : string;
  knowledge_base : string;
  message_count : Z;
  created_at : string;
  updated_at : string;
  is_active : bool
}.

(** [formatTimeAgo(dateString)], at the time [now]; [toLocaleDateString] is
    the text that the locale gives for a date. *)
Definition formatTimeAgo `{Js.DateImpl} (toLocaleDateString : Js.Num -> string)
    (now : Z) (dateString : string) : string :=
  let date := Js.Date_getTime (Js.TsString dateString) in
  let diffMs := Js.sub (Js.Fin now) date in
  let diffMins := Js.floorDiv diffMs 60000 in
  let diffHours := Js.floorDiv diffMins 60 in
  let diffDays := Js.floorDiv diffHours 24 in
  if Js.lt diffMins (Js.Fin 1) then "Just now"
  else if Js.lt diffMins (Js.Fin 60) then Js.toString diffMins ++ "m ago"
  else if Js.lt diffHours (Js.Fin 24) then Js.toString diffHours ++ "h ago"
  else if Js.lt diffDays (Js.Fin 7) then Js.toString diffDays ++ "d ago"
  else toLocaleDateString date.

(** The state of the component, and the number of calls it has made to its
    property [onNewSession]. *)
Record History : Type := {
  sessions : list Session;
  isLoading : bool;
  deletingId : option string;
  newSessions : nat
}.

Definition setDeletingId (d : option string) (st : History) : History :=
  {| sessions := sessions st; isLoading := isLoading st; deletingId := d;
     newSessions := newSessions st |}.

(** [handleDelete] up to its [await]: with a deletion under way nothing
    happens; otherwise the id is noted and the [DELETE] is sent ([true]). *)
Definition handleDeleteStart (sessionId : string) (st : History) : History * bool :=
  let start := (setDeletingId (Some sessionId) st, true) in
  match deletingId st with
  | Some d => if Js.truthy_string d then (st, false) else start
  | None => start
  end.

(** [handleDelete] from its [await] on: [outcome] is [None] when [fetch]
    throws, and the [ok] of the response otherwise. *)
Definition handleDeleteSettle (currentSessionId : option string) (sessionId : string)
    (outcome : option bool) (st : History) : History :=
  let removed :=
    {| sessions := filter (fun s => id s ≠ sessionId) (sessions st);
       isLoading := isLoading st;
       deletingId := deletingId st;
       newSessions :=
         if bool_decide (currentSessionId = Some sessionId)
         then S (newSessions st) else newSessions st |} in
  setDeletingId None
    match outcome with
    | Some true => removed
    | _ => st
    end.

End SessionHistory.

(** ** The words of the statements

    The notions the properties below talk about. *)

Module Notions.
Import KnowledgePage UseSolverSession.

Section WithDate.
Context `{Js.DateImpl}.

(** The record carries a time that lies more than [d] milliseconds before
    [now]. *)
Definition olderThan (d : Z) (now : Z) (progress : ProgressInfo) : Prop :=
  ∃ ts t, KnowledgePage.timestamp progress = Some ts
          ∧ Js.Date_getTime ts = Js.Fin t ∧ d < now - t.

(** The record carries a valid time that lies at most [d] milliseconds before
    [now]. *)
Definition within (d : Z) (now : Z) (progress : ProgressInfo) : Prop :=
  ∃ ts t, KnowledgePage.timestamp progress = Some ts ∧ Js.truthy_timestamp ts = true
          ∧ Js.Date_getTime ts = Js.Fin t ∧ t ≠ 0 ∧ now - t ≤ d.

(** The time of the record is the time [now] of its receipt. *)
Definition stampedAt (now : Z) (progress : ProgressInfo) : Prop :=
  ∃ ts, KnowledgePage.timestamp progress = Some ts ∧ Js.Date_getTime ts = Js.Fin now.

End WithDate.

(** A well-formed [progress] message. *)
Definition progressMessage (progress : ProgressInfo) : MessageEvent :=
  Parsed {| p_type := "progress"; p_data := Some progress; p_message := None |}.

(** The record a message hands to the progress map, if any. *)
Definition carried (event : MessageEvent) : option ProgressInfo :=
  match event with
  | Unparsable => None
  | Parsed data => if String.eqb (p_type data) "progress" then p_data data else None
  end.

(** The stored record of an entity is completed or error. *)
Definition storedFinished (kbName : string) (pg : Page) : Prop :=
  ∃ r, progressMap pg !! kbName = Some r ∧ finished r = true.

(** A socket is registered under [n] and is not [CLOSED]. *)
Definition alive (m : gmap string WebSocket) (n : string) : Prop :=
  ∃ ws, m !! n = Some ws ∧ readyState ws ≠ CLOSED.

(** The test of the loop that opens sockets succeeds for [n]: a socket is
    registered under [n] and is not [CLOSED], or nothing is registered under
    [n] and [n] names a property of [Object.prototype]. *)
Definition occupied (m : gmap string WebSocket) (n : string) : Prop :=
  alive m n ∨ (m !! n = None ∧ Js.inherited n = true).

(** The registry matches the tracked names: the loop has nothing to open for
    a tracked name, and no other name has a socket. *)
Definition reconciled (names : list string) (m : gmap string WebSocket) : Prop :=
  (∀ n, n ∈ names → occupied m n) ∧ (∀ n, is_Some (m !! n) → n ∈ names).

(** The test that makes the socket effect return before it touches the
    registry. *)
Definition unchangedNames (kbs : list KnowledgeBase) (pg : Page) : bool :=
  String.eqb (Js.join "," (Js.sort (name <$> kbs))) (Js.join "," (Js.sort (kbsNamesRef pg)))
  && negb (String.eqb (Js.join "," (Js.sort (name <$> kbs))) "")
  && bool_decide (0 < size (wsConnectionsRef pg))%nat.

(** The authoritative append failed: [fetch] threw, or the response was not
    [ok]. *)
Definition appendFailed (outcome : FetchOutcome) : bool :=
  match outcome with
  | FetchThrows => true
  | Response ok _ => negb ok
  end.

(** The write that a fired timer issues: one [PUT], or nothing for a session
    without id. *)
Definition written (tm : Timer) : list Request :=
  if Js.truthy_string (id (args tm)) then [saveRequest (args tm)] else [].

(** The writes issued by the timers of [ts] that are due by [t]. *)
Definition writtenBy (t : Z) (ts : list Timer) : list Request :=
  flat_map written (filter (fun tm => due tm ≤ t) ts).

(** One timer is pending: it was set at time [t] for the session [s], and the
    closure of [debounce] holds its handle. *)
Definition armed (debounceMs : Z) (t : Z) (s : SolverSession) (h : Hook) : Prop :=
  ∃ hd, timers h = [ {| handle := hd; due := t + Z.max 0 debounceMs; args := s |} ]
        ∧ timeout h = Some hd ∧ clock h = t.

(** The cache mirrors the session: the store accepts writes, and an active
    session is the cached session. *)
Definition coherent (h : Hook) : Prop :=
  LocalStorage.accepts (UseSolverSession.localStorage h) = true
  ∧ ∀ s, session h = Some s → loadFromCache h = Some s.

(** The write of one auto-save: one [PUT], or nothing for a session without
    id. *)
Definition saved (s : SolverSession) : list Request :=
  if Js.truthy_string (id s) then [saveRequest s] else [].

(** The session that the authoritative source hands over, if it does. *)
Definition authoritative (outcome : FetchOutcome) : option SolverSession :=
  match outcome with
  | Response true (JsonSession data) => Some data
  | _ => None
  end.

(** The request got a response with a success status. *)
Definition responseOk (outcome : FetchOutcome) : bool :=
  match outcome with
  | Response ok _ => ok
  | FetchThrows => false
  end.

(** The store mirrors the progress map: it accepts writes and holds the map
    of the page. *)
Definition mirrored (pg : Page) : Prop :=
  LocalStorage.accepts (KnowledgePage.localStorage pg) = true
  ∧ LocalStorage.getItem PROGRESS_KEY (KnowledgePage.localStorage pg)
    = Some (progressMap pg).

Section Acceptance.
Context `{Js.DateImpl}.

(** The record that a message makes the socket of [kb] store, if any: the one
    it carries, unless [kb] was initialised and the record is a stale
    in-progress one. *)
Definition accepted (kb : KnowledgeBase) (ev : Z * MessageEvent) : option ProgressInfo :=
  match carried ev.2 with
  | Some progress =>
      if rag_initialized (statistics kb) && staleInProgress ev.1 progress
      then None else Some progress
  | None => None
  end.

End Acceptance.

End Notions.

(** ** Sample values

    The values of the worked examples.  Their [Date.parse] is [isoDate]. *)

Module Samples.
Import KnowledgePage Notions.

#[local] Existing Instance isoDate.

Definition stats (ready : bool) : Statistics :=
  {| raw_documents := 3; images := 0; content_lists := 0;
     rag_initialized := ready; rag := None |}.

Definition kb (n : string) (ready : bool) : KnowledgeBase :=
  {| name := n; is_default := false; statistics := stats ready |}.

Definition info (st : string) (pct : Z) (ts : option Js.Timestamp) : ProgressInfo :=
  {| stage := st; message := ""; current := 0; total := 0; file_name := None;
     progress_percent := pct; error := None; timestamp := ts |}.

Definition emptyStore : LocalStorage.t (gmap string ProgressInfo) :=
  LocalStorage.mk ∅ true.

(** 2024-01-01T00:00:00.000Z and moments after it, in milliseconds. *)
Definition newYear : Z := 1704067200000.
Definition newYearIso : Js.Timestamp := Js.TsString "2024-01-01T00:00:00.000Z".
Definition minutes (n : Z) : Z := n * 60 * 1000.

(** A page whose only record, for [math101], is [completed]. *)
Definition donePage : Page :=
  storeProgress "math101" (info "completed" 100 None) (initialPage emptyStore).

(** A store holding two records saved at [newYear], one in progress and one
    completed, and one in-progress record without a time. *)
Definition savedMap : gmap string ProgressInfo :=
  <["stuck" := info "processing" 40 (Some newYearIso)]>
    (<["done" := info "completed" 100 (Some newYearIso)]>
       (<["untimed" := info "extracting" 10 None]> ∅)).

Definition savedPage : Page :=
  initialPage (LocalStorage.mk (<[PROGRESS_KEY := savedMap]> ∅) true).

(** The scenario of [math101], not yet initialised: [initializing], then
    [completed], then a late [processing_file]. *)
Definition math101 : KnowledgeBase := kb "math101" false.

Definition lateProgress : ProgressInfo := info "processing_file" 40 None.

Definition afterCompleted : Page :=
  receiveAll math101
    [ (newYear, progressMessage (info "initializing" 0 None));
      (newYear + minutes 1, progressMessage (info "completed" 100 None)) ]
    (initialPage emptyStore).

(** Three notifications on the socket of an initialised knowledge base: an
    in-progress record without a time, an error record, an in-progress record
    from new year received forty minutes later. *)
Definition staleBurst : list (Z * MessageEvent) :=
  [ (newYear + minutes 20, progressMessage (info "processing" 10 None));
    (newYear + minutes 30, progressMessage (info "error" 10 None));
    (newYear + minutes 40, progressMessage (info "extracting" 70 (Some newYearIso))) ].

(** Two listings with the same names, and the page after the sockets of the
    first were created. *)
Definition tracked : list KnowledgeBase := [kb "algebra" false; kb "math101" true].
Definition reordered : list KnowledgeBase := [kb "math101" true; kb "algebra" true].

Definition connected : Page := (syncConnections false tracked (initialPage emptyStore)).1.

(** A listing whose only knowledge base has the empty name, and the page
    after its socket was created and then closed by the server. *)
Definition nameless : list KnowledgeBase := [kb "" false].

Definition dropped : Page :=
  socketState "" CLOSED (syncConnections false nameless (initialPage emptyStore)).1.

(** A third listing: [algebra] is gone, [physics] is new. *)
Definition changed : list KnowledgeBase := [kb "math101" true; kb "physics" false].

(** The socket created for [algebra] by the first listing. *)
Definition algebraSocket : WebSocket :=
  {| ws_kb := kb "algebra" false; readyState := CONNECTING |}.

(** The page after the socket of a knowledge base named [a,b] was created. *)
Definition commaPage : Page :=
  (syncConnections false [kb "a,b" false] (initialPage emptyStore)).1.

(** A store whose saved map holds one record, completed, under the name
    [__proto__]. *)
Definition protoMap : gmap string ProgressInfo :=
  <["__proto__" := info "completed" 100 (Some newYearIso)]> ∅.

Definition protoPage : Page :=
  initialPage (LocalStorage.mk (<[PROGRESS_KEY := protoMap]> ∅) true).

(** A listing with a knowledge base named like a method of every object. *)
Definition methodNamed : list KnowledgeBase := [kb "toString" false; kb "algebra" false].

(** What happens to [donePage] next. *)
Definition afternoon : list PageAction :=
  [ Receive (kb "math101" true) (newYear + minutes 2)
      (progressMessage (info "processing" 40 (Some newYearIso)));
    ClearProgress "physics";
    StartProgress "algebra" "2024-01-01T00:03:00.000Z";
    Sync false tracked;
    ClearAllStuck;
    Unmount ].

End Samples.

Module SessionSamples.
Import UseSolverSession.

Definition noStats : TokenStats :=
  {| model := "gpt"; calls := 0; tokens := 0; input_tokens := 0;
     output_tokens := 0; cost := 0 |}.

Definition hello : SolverMessage :=
  {| role := user; content := "hello"; output_dir := DirNull;
     timestamp := Some "2024-01-01T00:00:00.000Z" |}.

(** The two messages of the offline conversation. *)
Definition why : SolverMessage :=
  {| role := user; content := "why?"; output_dir := DirNull;
     timestamp := Some "2024-01-01T00:05:00.000Z" |}.

Definition because : SolverMessage :=
  {| role := assistant; content := "because"; output_dir := DirNull;
     timestamp := Some "2024-01-01T00:06:00.000Z" |}.

Definition chat (sid ttl : string) : SolverSession :=
  {| id := sid; title := ttl; knowledge_base := "math101"; messages := [hello];
     token_stats := noStats; created_at := "2024-01-01T00:00:00.000Z";
     updated_at := "2024-01-01T00:00:00.000Z"; is_active := true;
     message_count := 1 |}.

Definition emptyCache : LocalStorage.t SolverSession := LocalStorage.mk ∅ true.

(** A hook at time 0 with no session, and one whose session is [chat "s1"]. *)
Definition idle : Hook := initialHook emptyCache 0.

Definition chatting : Hook :=
  saveToCache (chat "s1" "Limits") (setSession (Some (chat "s1" "Limits")) idle).

(** Two more saves, at 400 and 900 ms. *)
Definition burst : list (Z * SolverSession) :=
  [ (400, chat "s1" "Limits of"); (900, chat "s1" "Limits of sequences") ].

(** A conversation that starts on a fresh hook, and what follows its
    clearing. *)
Definition morning : list Use :=
  [ Call (LoadActive (Response true (JsonSession (chat "s1" "Limits"))));
    Call (AutoSave true);
    Call (AddMessage (Some (chat "s1" "Limits")) user "why?" None FetchThrows
            "2024-01-01T00:05:00.000Z");
    Call (AutoSave true);
    SetSession (Some (chat "s1" "Limits of sequences"));
    Call (AutoSave true);
    Call (Elapse 500) ].

Definition noon : list Use :=
  [ Call (Elapse 5000);
    Call (Create "math101" (Response true (JsonSession (chat "s2" "Series"))));
    Call (AutoSave true);
    Call (Elapse 10000) ].

(** A hook whose store is empty and refuses writes, with an active
    session. *)
Definition uncached : Hook :=
  setSession (Some (chat "s1" "Limits")) (initialHook (LocalStorage.mk ∅ false) 0).

(** What happens to [chatting] next. *)
Definition evening : list Action :=
  [ AddMessage (Some (chat "s1" "Limits")) user "why?" None FetchThrows
      "2024-01-01T00:05:00.000Z";
    AutoSave true;
    DebouncedSave defaultDebounceMs (chat "s1" "Limits");
    Elapse 2000;
    DeleteSession (Some (chat "s1" "Limits")) "s2" (Response true JsonNull);
    LoadActive (Response false JsonNull) ].

(** Two more saves, at 1001 and 2500 ms. *)
Definition apart : list (Z * SolverSession) :=
  [ (1001, chat "s1" "Limits of"); (2500, chat "" "Untitled") ].

(** The text of a date in the sample locale. *)
Definition sampleLocale (date : Js.Num) : string :=
  match date with
  | Js.Fin _ => "1/1/2024"
  | Js.NaN => "Invalid Date"
  end.

End SessionSamples.

(** ** Properties of the knowledge page *)

Module ProgressFacts.
Import KnowledgePage Notions.

Section WithDate.
Context `{Js.DateImpl}.

(** *** The staleness guard *)

Lemma finished_stage (progress : ProgressInfo) :
  finished progress = false →
  String.eqb (stage progress) "completed" = false
  ∧ String.eqb (stage progress) "error" = false.
Proof.
  unfold finished. intros Hf. apply orb_false_iff in Hf. exact Hf.
Qed.

Lemma stale_without_timestamp (now : Z) (progress : ProgressInfo) :
  finished progress = false →
  timestamp progress = None →
  staleInProgress now progress = true.
Proof.
  intros Hf Hts. destruct (finished_stage _ Hf) as [Hc He].
  unfold staleInProgress. rewrite Hts, Hc, He. reflexivity.
Qed.

Lemma stale_when_older (now : Z) (progress : ProgressInfo) :
  finished progress = false →
  olderThan fiveMinutes now progress →
  staleInProgress now progress = true.
Proof.
  intros Hf (ts & t & Hts & Ht & Hold). destruct (finished_stage _ Hf) as [Hc He].
  unfold staleInProgress. rewrite Hts, Hc, He. simpl.
  destruct (Js.truthy_timestamp ts).
  - rewrite Ht. simpl. apply orb_true_iff. right. apply Z.ltb_lt. exact Hold.
  - reflexivity.
Qed.

Lemma fresh_not_stale (now : Z) (progress : ProgressInfo) :
  within fiveMinutes now progress →
  staleInProgress now progress = false.
Proof.
  intros (ts & t & Hts & Htruthy & Ht & Hnz & Hage).
  unfold staleInProgress. rewrite Hts, Htruthy, Ht. simpl.
  apply andb_false_iff. right. apply orb_false_iff. split.
  - apply Z.eqb_neq. exact Hnz.
  - apply Z.ltb_ge. exact Hage.
Qed.

Lemma finished_not_stale (now : Z) (progress : ProgressInfo) :
  finished progress = true →
  staleInProgress now progress = false.
Proof.
  unfold finished, staleInProgress. intros Hf.
  destruct (String.eqb (stage progress) "completed"); [reflexivity|].
  simpl in Hf. rewrite Hf. reflexivity.
Qed.

(** *** What a message does to the page *)

Lemma onmessage_carried_none (kb : KnowledgeBase) (now : Z) (event : MessageEvent) (pg : Page) :
  carried event = None → onmessage kb now event pg = pg.
Proof.
  destruct event as [|data]; [reflexivity|]. simpl.
  destruct (String.eqb (p_type data) "progress"); intros Hc.
  - rewrite Hc. reflexivity.
  - destruct (p_data data); reflexivity.
Qed.

Lemma onmessage_carried (kb : KnowledgeBase) (now : Z) (event : MessageEvent)
    (progress : ProgressInfo) (pg : Page) :
  carried event = Some progress →
  onmessage kb now event pg =
    if rag_initialized (statistics kb) && staleInProgress now progress
    then pg else storeProgress (name kb) progress pg.
Proof.
  destruct event as [|data]; [discriminate|]. simpl.
  destruct (String.eqb (p_type data) "progress"); [|discriminate].
  intros ->. reflexivity.
Qed.

Lemma storeProgress_lookup (kbName : string) (progress : ProgressInfo) (pg : Page) :
  progressMap (storeProgress kbName progress pg) !! kbName = Some progress.
Proof. simpl. apply lookup_insert_eq. Qed.

Lemma storeProgress_persisted (kbName : string) (progress : ProgressInfo) (pg : Page) :
  LocalStorage.accepts (localStorage pg) = true →
  LocalStorage.getItem PROGRESS_KEY (localStorage (storeProgress kbName progress pg))
  = Some (progressMap (storeProgress kbName progress pg)).
Proof.
  intros Hok. unfold storeProgress, LocalStorage.trySetItem, LocalStorage.setItem,
    LocalStorage.getItem. simpl. rewrite Hok. simpl. apply lookup_insert_eq.
Qed.

Lemma onmessage_stale (kb : KnowledgeBase) (now : Z) (event : MessageEvent)
    (progress : ProgressInfo) (pg : Page) :
  rag_initialized (statistics kb) = true →
  carried event = Some progress →
  finished progress = false →
  timestamp progress = None ∨ olderThan fiveMinutes now progress →
  onmessage kb now event pg = pg.
Proof.
  intros Hready Hcar Hf Hstale.
  rewrite (onmessage_carried _ _ _ _ _ Hcar), Hready.
  destruct Hstale as [Hnone | Hold].
  - rewrite (stale_without_timestamp _ _ Hf Hnone). reflexivity.
  - rewrite (stale_when_older _ _ Hf Hold). reflexivity.
Qed.

(** C6, as the code has it.  With no record stored for the entity, the
    notification is accepted and stored when the socket was opened for a
    knowledge base not yet initialised, or the stage is completed or error, or
    the time is valid and at most five minutes old; it is rejected when the
    knowledge base was initialised and the stage is in progress with a time
    that is absent or more than five minutes old. *)
Theorem first_record_accepted_unless_stale (kb : KnowledgeBase) (now : Z)
    (progress : ProgressInfo) (pg : Page) :
  progressMap pg !! name kb = None →
  (rag_initialized (statistics kb) = false ∨ finished progress = true
   ∨ within fiveMinutes now progress →
   progressMap (onmessage kb now (progressMessage progress) pg) !! name kb = Some progress)
  ∧ (rag_initialized (statistics kb) = true → finished progress = false →
     timestamp progress = None ∨ olderThan fiveMinutes now progress →
     progressMap (onmessage kb now (progressMessage progress) pg) !! name kb = None).
Proof.
  intros Hnone. split.
  - intros Hacc. rewrite (onmessage_carried _ _ _ progress) by reflexivity.
    assert (rag_initialized (statistics kb) && staleInProgress now progress = false) as ->.
    { destruct Hacc as [Hr | [Hf | Hw]].
      - rewrite Hr. reflexivity.
      - rewrite (finished_not_stale _ _ Hf). apply andb_false_r.
      - rewrite (fresh_not_stale _ _ Hw). apply andb_false_r. }
    apply storeProgress_lookup.
  - intros Hready Hf Hstale.
    rewrite (onmessage_stale kb now _ progress pg); auto.
Qed.

(** C5, as the code has it.  An accepted notification is stored exactly as the
    payload carried it, its time included, under the name of the knowledge
    base; the other entries stay; and the full map is then written to the
    store, which holds it whenever it accepts the write. *)
Theorem accepted_progress_stored_as_received (kb : KnowledgeBase) (now : Z)
    (progress : ProgressInfo) (pg : Page) :
  rag_initialized (statistics kb) && staleInProgress now progress = false →
  let pg' := onmessage kb now (progressMessage progress) pg in
  progressMap pg' = <[name kb := progress]> (progressMap pg)
  ∧ progressMap pg' !! name kb = Some progress
  ∧ localStorage pg'
    = LocalStorage.trySetItem PROGRESS_KEY (progressMap pg') (localStorage pg)
  ∧ (LocalStorage.accepts (localStorage pg) = true →
     LocalStorage.getItem PROGRESS_KEY (localStorage pg') = Some (progressMap pg')).
Proof.
  intros Hacc pg'. subst pg'.
  rewrite (onmessage_carried _ _ _ progress) by reflexivity. rewrite Hacc.
  split; [reflexivity|]. split; [|split].
  - apply storeProgress_lookup.
  - reflexivity.
  - apply storeProgress_persisted.
Qed.

(** A socket opened for a knowledge base that was not initialised stores
    every progress record it receives. *)
Lemma unready_socket_stores_all (kb : KnowledgeBase) (now : Z) (progress : ProgressInfo)
    (pg : Page) :
  rag_initialized (statistics kb) = false →
  onmessage kb now (progressMessage progress) pg = storeProgress (name kb) progress pg.
Proof.
  intros Hready. rewrite (onmessage_carried _ _ _ progress) by reflexivity.
  rewrite Hready. reflexivity.
Qed.

(** *** Sequences of messages *)

Lemma receiveAll_cons (kb : KnowledgeBase) (ev : Z * MessageEvent)
    (events : list (Z * MessageEvent)) (pg : Page) :
  receiveAll kb (ev :: events) pg = receiveAll kb events (onmessage kb ev.1 ev.2 pg).
Proof. reflexivity. Qed.

Lemma onmessage_keeps_finished (kb : KnowledgeBase) (now : Z) (event : MessageEvent)
    (pg : Page) :
  rag_initialized (statistics kb) = true →
  (∀ progress, carried event = Some progress → finished progress = false →
     timestamp progress = None ∨ olderThan fiveMinutes now progress) →
  storedFinished (name kb) pg →
  storedFinished (name kb) (onmessage kb now event pg).
Proof.
  intros Hready Hlate Hst.
  destruct (carried event) as [progress|] eqn:Hcar.
  - destruct (finished progress) eqn:Hf.
    + rewrite (onmessage_carried _ _ _ _ _ Hcar).
      rewrite (finished_not_stale _ _ Hf), andb_false_r.
      exists progress. split; [apply storeProgress_lookup | exact Hf].
    + rewrite (onmessage_stale kb now event progress pg); auto.
  - rewrite onmessage_carried_none by exact Hcar. exact Hst.
Qed.

(** C1, as the code has it.  On a socket opened for a knowledge base that the
    listing reported as initialised, once a completed or error record is
    stored, it stays completed or error through every sequence of
    notifications in which each in-progress record has a time that is absent
    or more than five minutes before its receipt: none of those is
    accepted. *)
Theorem finished_survives_stale_progress (kb : KnowledgeBase)
    (events : list (Z * MessageEvent)) (pg : Page) :
  rag_initialized (statistics kb) = true →
  storedFinished (name kb) pg →
  Forall (fun ev => ∀ progress, carried ev.2 = Some progress →
            finished progress = false →
            timestamp progress = None ∨ olderThan fiveMinutes ev.1 progress) events →
  storedFinished (name kb) (receiveAll kb events pg)
  ∧ Forall (fun ev => ∀ progress q, carried ev.2 = Some progress →
              finished progress = false → onmessage kb ev.1 ev.2 q = q) events.
Proof.
  intros Hready Hst Hall. split.
  - revert pg Hst. induction Hall as [|ev events Hev Hrest IH]; intros pg Hst.
    + exact Hst.
    + rewrite receiveAll_cons. apply IH.
      apply onmessage_keeps_finished; assumption.
  - induction Hall as [|ev events Hev Hrest IH]; constructor; [|exact IH].
    intros progress q Hcar Hf.
    apply (onmessage_stale kb ev.1 ev.2 progress q); auto.
Qed.

(** *** Restore on mount *)

Lemma cleanStuck_lookup (now : Z) (parsed : gmap string ProgressInfo) (k : string)
    (r : ProgressInfo) :
  cleanStuck now parsed !! k = Some r
  ↔ parsed !! k = Some r ∧ k ≠ "__proto__" ∧ keptOnRestore now r = true.
Proof.
  unfold cleanStuck. rewrite map_lookup_filter_Some. cbn [fst snd].
  rewrite Is_true_true, andb_true_iff. unfold Js.assignCreates.
  rewrite negb_true_iff, String.eqb_neq. reflexivity.
Qed.

Lemma cleanStuck_drops (now : Z) (parsed : gmap string ProgressInfo) (k : string)
    (r : ProgressInfo) :
  parsed !! k = Some r → keptOnRestore now r = false → cleanStuck now parsed !! k = None.
Proof.
  intros Hk Hkeep. destruct (cleanStuck now parsed !! k) as [r'|] eqn:Hin; [|reflexivity].
  apply cleanStuck_lookup in Hin as (Hk' & _ & Hkept). congruence.
Qed.

(** An entry saved under [__proto__] never enters the cleaned map. *)
Lemma cleanStuck_proto (now : Z) (parsed : gmap string ProgressInfo) :
  cleanStuck now parsed !! "__proto__" = None.
Proof.
  destruct (cleanStuck now parsed !! "__proto__") as [r|] eqn:Hin; [|reflexivity].
  apply cleanStuck_lookup in Hin as (_ & Hne & _). exfalso. apply Hne. reflexivity.
Qed.

Lemma kept_when_finished (now : Z) (r : ProgressInfo) :
  finished r = true → keptOnRestore now r = true.
Proof.
  unfold keptOnRestore, finished. intros Hf.
  destruct (timestamp r) as [ts|]; [|exact Hf].
  destruct (Js.truthy_timestamp ts); [|exact Hf].
  rewrite Hf. reflexivity.
Qed.

Lemma dropped_when_old (now : Z) (r : ProgressInfo) :
  finished r = false → olderThan thirtyMinutes now r → keptOnRestore now r = false.
Proof.
  intros Hf (ts & t & Hts & Ht & Hold). destruct (finished_stage _ Hf) as [Hc He].
  unfold keptOnRestore. rewrite Hts, Hf.
  destruct (Js.truthy_timestamp ts); [|reflexivity].
  rewrite Hc, He, Ht. simpl. apply Z.ltb_ge. lia.
Qed.

Lemma untimed_kept_iff (now : Z) (r : ProgressInfo) :
  timestamp r = None → keptOnRestore now r = finished r.
Proof. unfold keptOnRestore. intros ->. reflexivity. Qed.

(** X28.  What the restore effect does to a saved map.  An entry in progress
    whose time is more than thirty minutes old is discarded.  Under every
    name but [__proto__], an entry completed or error is kept whatever its
    age, and an entry without a time is kept exactly when it is completed or
    error.  Nothing else enters the map, and the cleaned map is written back
    at once, so the store holds it whenever it accepts the write. *)
Theorem restore_cleans_saved_map (now : Z) (pg : Page)
    (parsed : gmap string ProgressInfo) :
  LocalStorage.getItem PROGRESS_KEY (localStorage pg) = Some parsed →
  let pg' := restoreProgress now pg in
  (∀ k r, parsed !! k = Some r → finished r = false →
          olderThan thirtyMinutes now r → progressMap pg' !! k = None)
  ∧ (∀ k r, k ≠ "__proto__" → parsed !! k = Some r → finished r = true →
            progressMap pg' !! k = Some r)
  ∧ (∀ k r, k ≠ "__proto__" → parsed !! k = Some r → timestamp r = None →
            (progressMap pg' !! k = Some r ↔ finished r = true))
  ∧ (∀ k r, progressMap pg' !! k = Some r → parsed !! k = Some r)
  ∧ localStorage pg'
    = LocalStorage.trySetItem PROGRESS_KEY (progressMap pg') (localStorage pg)
  ∧ (LocalStorage.accepts (localStorage pg) = true →
     LocalStorage.getItem PROGRESS_KEY (localStorage pg') = Some (progressMap pg')).
Proof.
  intros Hsaved pg'. subst pg'. unfold restoreProgress. rewrite Hsaved.
  cbn [progressMap localStorage].
  split; [|split; [|split; [|split; [|split]]]].
  - intros k r Hk Hf Hold. apply (cleanStuck_drops _ _ _ r); [exact Hk|].
    apply dropped_when_old; assumption.
  - intros k r Hne Hk Hf. apply cleanStuck_lookup. split; [exact Hk|].
    split; [exact Hne|]. apply kept_when_finished. exact Hf.
  - intros k r Hne Hk Hts. split.
    + intros Hin. apply cleanStuck_lookup in Hin as (_ & _ & Hkept).
      rewrite untimed_kept_iff in Hkept; assumption.
    + intros Hf. apply cleanStuck_lookup. split; [exact Hk|]. split; [exact Hne|].
      rewrite untimed_kept_iff; assumption.
  - intros k r Hin. apply cleanStuck_lookup in Hin as (Hk & _). exact Hk.
  - reflexivity.
  - intros Hok. unfold LocalStorage.trySetItem, LocalStorage.setItem, LocalStorage.getItem.
    rewrite Hok. simpl. apply lookup_insert_eq.
Qed.

End WithDate.
End ProgressFacts.

(** ** Properties of the socket registry *)

Module RegistryFacts.
Import KnowledgePage Notions.

(** *** The order of [sort] *)

Lemma unitRank_inj (x y : ascii) : Js.unitRank x = Js.unitRank y → x = y.
Proof.
  unfold Js.unitRank. intros Heq.
  pose proof (N_ascii_bounded x) as Hx. pose proof (N_ascii_bounded y) as Hy.
  assert (N_of_ascii x = N_of_ascii y) as Hn.
  { destruct ((N_of_ascii x =? 238) || (N_of_ascii x =? 239))%N;
      destruct ((N_of_ascii y =? 238) || (N_of_ascii y =? 239))%N; lia. }
  rewrite <- (ascii_N_embedding x), <- (ascii_N_embedding y), Hn. reflexivity.
Qed.

Lemma compare_eq (a b : string) : Js.compare a b = Eq → a = b.
Proof.
  revert b. induction a as [|x a IH]; intros [|y b]; simpl; try discriminate; [reflexivity|].
  destruct (N.compare_spec (Js.unitRank x) (Js.unitRank y)) as [Hxy|Hxy|Hxy];
    try discriminate.
  intros Hrest. rewrite (unitRank_inj _ _ Hxy), (IH _ Hrest). reflexivity.
Qed.

Lemma compare_antisym (a b : string) : Js.compare b a = CompOpp (Js.compare a b).
Proof.
  revert b. induction a as [|x a IH]; intros [|y b]; simpl; try reflexivity.
  rewrite (N.compare_antisym (Js.unitRank x) (Js.unitRank y)).
  destruct (Js.unitRank x ?= Js.unitRank y)%N; simpl; [apply IH | reflexivity | reflexivity].
Qed.

Lemma compare_not_gt_trans (a b c : string) :
  Js.compare a b ≠ Gt → Js.compare b c ≠ Gt → Js.compare a c ≠ Gt.
Proof.
  revert b c. induction a as [|x xs IH]; intros [|y ys] [|z zs]; simpl; try congruence.
  destruct (N.compare_spec (Js.unitRank x) (Js.unitRank y)) as [Hxy|Hxy|Hxy];
    destruct (N.compare_spec (Js.unitRank y) (Js.unitRank z)) as [Hyz|Hyz|Hyz];
    destruct (N.compare_spec (Js.unitRank x) (Js.unitRank z)) as [Hxz|Hxz|Hxz];
    try congruence; try lia.
  apply IH.
Qed.

#[local] Instance string_le_trans : Transitive Js.string_le.
Proof. intros a b c. unfold Js.string_le. apply compare_not_gt_trans. Qed.

#[local] Instance string_le_antisymm : AntiSymm (=) Js.string_le.
Proof.
  intros a b. unfold Js.string_le. rewrite (compare_antisym a b).
  destruct (Js.compare a b) eqn:Hab; simpl; intros Hle Hge.
  - apply compare_eq. exact Hab.
  - exfalso. apply Hge. reflexivity.
  - exfalso. apply Hle. reflexivity.
Qed.

#[local] Instance string_le_total : Total Js.string_le.
Proof.
  intros a b. unfold Js.string_le. rewrite (compare_antisym a b).
  destruct (Js.compare a b); simpl; [left | left | right]; discriminate.
Qed.

(** [sort] gives the same list on two lists with the same elements. *)
Lemma sort_Permutation (l1 l2 : list string) : l1 ≡ₚ l2 → Js.sort l1 = Js.sort l2.
Proof.
  intros Hperm. unfold Js.sort. apply (Sorted_unique Js.string_le).
  - apply Sorted_merge_sort; apply _.
  - apply Sorted_merge_sort; apply _.
  - rewrite !merge_sort_Permutation. exact Hperm.
Qed.

(** *** The loop that opens sockets *)

Lemma alive_dec (m : gmap string WebSocket) (n : string) : alive m n ∨ ¬ alive m n.
Proof.
  unfold alive. destruct (m !! n) as [ws|] eqn:Hn.
  - destruct (decide (readyState ws = CLOSED)) as [Hc|Hc].
    + right. intros (ws' & Hws' & Hopen). congruence.
    + left. exists ws. auto.
  - right. intros (ws' & Hws' & _). discriminate.
Qed.

Lemma occupied_dec (m : gmap string WebSocket) (n : string) :
  occupied m n ∨ ¬ occupied m n.
Proof.
  unfold occupied. destruct (alive_dec m n) as [Ha|Hd]; [left; left; exact Ha|].
  destruct (m !! n) as [ws|] eqn:Hn.
  - right. intros [Ha | [Hnone _]]; [exact (Hd Ha) | discriminate Hnone].
  - destruct (Js.inherited n) eqn:Hin.
    + left. right. split; reflexivity.
    + right. intros [Ha | [_ Hyes]]; [exact (Hd Ha) | discriminate Hyes].
Qed.

(** The loop passes over a name whose test succeeds. *)
Lemma connect_occupied (acc : gmap string WebSocket * list ChannelEvent)
    (kb : KnowledgeBase) :
  occupied acc.1 (name kb) → connect acc kb = acc.
Proof.
  unfold connect. intros [(ws & Hws & Hopen) | [Hnone Hin]].
  - rewrite Hws. rewrite bool_decide_eq_true_2 by exact Hopen. reflexivity.
  - rewrite Hnone, Hin. reflexivity.
Qed.

(** It creates a socket for every other name. *)
Lemma connect_free (acc : gmap string WebSocket * list ChannelEvent)
    (kb : KnowledgeBase) :
  ¬ occupied acc.1 (name kb) →
  connect acc kb
  = (<[name kb := {| ws_kb := kb; readyState := CONNECTING |}]> acc.1,
     (acc.2 ++ [Opened (name kb)])%list).
Proof.
  intros Hfree. unfold connect. destruct (acc.1 !! name kb) as [ws|] eqn:Hws.
  - case_bool_decide as Hopen; [|reflexivity].
    exfalso. apply Hfree. left. exists ws. auto.
  - destruct (Js.inherited (name kb)) eqn:Hin; [|reflexivity].
    exfalso. apply Hfree. right. auto.
Qed.

Lemma occupied_insert_connecting (m : gmap string WebSocket) (kb : KnowledgeBase)
    (n : string) :
  occupied (<[name kb := {| ws_kb := kb; readyState := CONNECTING |}]> m) n
  ↔ n = name kb ∨ occupied m n.
Proof.
  unfold occupied, alive. destruct (decide (n = name kb)) as [->|Hne].
  - rewrite lookup_insert_eq. split; [auto|]. intros _. left. eexists.
    split; [reflexivity|]. simpl. discriminate.
  - rewrite lookup_insert_ne by congruence. split; [auto|].
    intros [Heq|Ho]; [congruence | exact Ho].
Qed.

Lemma connect_occupied_mono (acc : gmap string WebSocket * list ChannelEvent)
    (kb : KnowledgeBase) (n : string) :
  occupied acc.1 n → occupied (connect acc kb).1 n.
Proof.
  intros Ho. destruct (occupied_dec acc.1 (name kb)) as [Hkb|Hkb].
  - rewrite connect_occupied by exact Hkb. exact Ho.
  - rewrite connect_free by exact Hkb. cbn [fst].
    apply occupied_insert_connecting. right. exact Ho.
Qed.

Lemma connect_occupied_self (acc : gmap string WebSocket * list ChannelEvent)
    (kb : KnowledgeBase) :
  occupied (connect acc kb).1 (name kb).
Proof.
  destruct (occupied_dec acc.1 (name kb)) as [Hkb|Hkb].
  - rewrite connect_occupied by exact Hkb. exact Hkb.
  - rewrite connect_free by exact Hkb. cbn [fst].
    apply occupied_insert_connecting. left. reflexivity.
Qed.

Lemma connect_keys (acc : gmap string WebSocket * list ChannelEvent)
    (kb : KnowledgeBase) (n : string) :
  is_Some ((connect acc kb).1 !! n) → is_Some (acc.1 !! n) ∨ n = name kb.
Proof.
  destruct (occupied_dec acc.1 (name kb)) as [Hkb|Hkb].
  - rewrite connect_occupied by exact Hkb. auto.
  - rewrite connect_free by exact Hkb. cbn [fst].
    destruct (decide (name kb = n)) as [Heq|Hne]; [auto|].
    rewrite lookup_insert_ne by exact Hne. auto.
Qed.

Lemma connect_all_occupied (kbs : list KnowledgeBase)
    (acc : gmap string WebSocket * list ChannelEvent) (n : string) :
  occupied acc.1 n ∨ n ∈ (name <$> kbs) → occupied (fold_left connect kbs acc).1 n.
Proof.
  revert acc. induction kbs as [|kb kbs IH]; intros acc Hn; simpl.
  - destruct Hn as [Hn|Hn]; [exact Hn|]. inversion Hn.
  - apply IH. destruct Hn as [Hn|Hn].
    + left. apply connect_occupied_mono. exact Hn.
    + simpl in Hn. apply elem_of_cons in Hn as [->|Hn]; [|right; exact Hn].
      left. apply connect_occupied_self.
Qed.

Lemma connect_all_keys (kbs : list KnowledgeBase)
    (acc : gmap string WebSocket * list ChannelEvent) (n : string) :
  is_Some ((fold_left connect kbs acc).1 !! n) →
  is_Some (acc.1 !! n) ∨ n ∈ (name <$> kbs).
Proof.
  revert acc. induction kbs as [|kb kbs IH]; intros acc Hn; simpl in *.
  - left. exact Hn.
  - apply IH in Hn as [Hn|Hn].
    + apply connect_keys in Hn as [Hn| ->]; [left; exact Hn|].
      right. apply elem_of_cons. left. reflexivity.
    + right. apply elem_of_cons. right. exact Hn.
Qed.

(** When the test succeeds for every tracked name, the loop opens nothing. *)
Lemma connect_all_noop (kbs : list KnowledgeBase) (m : gmap string WebSocket)
    (events : list ChannelEvent) :
  (∀ n, n ∈ (name <$> kbs) → occupied m n) →
  fold_left connect kbs (m, events) = (m, events).
Proof.
  induction kbs as [|kb kbs IH]; intros Hall; simpl; [reflexivity|].
  rewrite connect_occupied.
  - apply IH. intros n Hn. apply Hall. simpl. apply elem_of_cons. right. exact Hn.
  - apply Hall. simpl. apply elem_of_cons. left. reflexivity.
Qed.

Lemma closes_empty : closes ∅ = [].
Proof. unfold closes. rewrite map_to_list_empty. reflexivity. Qed.

(** *** One run of the effect *)

Lemma sync_unchangedNames (loading : bool) (kbs : list KnowledgeBase) (pg : Page) :
  unchangedNames kbs pg = true → syncConnections loading kbs pg = (pg, []).
Proof.
  intros Hskip. unfold syncConnections. destruct loading; [reflexivity|].
  unfold unchangedNames in Hskip. rewrite Hskip. reflexivity.
Qed.

Lemma unchangedNames_Permutation (kbs kbs' : list KnowledgeBase) (pg : Page) :
  name <$> kbs' ≡ₚ name <$> kbs → unchangedNames kbs' pg = unchangedNames kbs pg.
Proof.
  intros Hperm. unfold unchangedNames. rewrite (sort_Permutation _ _ Hperm). reflexivity.
Qed.

(** After a run that does not return early, the registry matches the tracked
    names. *)
Lemma sync_reconciles (kbs : list KnowledgeBase) (pg : Page) :
  unchangedNames kbs pg = false →
  reconciled (name <$> kbs) (wsConnectionsRef (syncConnections false kbs pg).1).
Proof.
  intros Hskip. unfold syncConnections. unfold unchangedNames in Hskip. rewrite Hskip.
  destruct kbs as [|kb kbs].
  - rewrite bool_decide_eq_true_2 by reflexivity.
    assert (reconciled [] (∅ : gmap string WebSocket)) as Hempty.
    { split; [intros n Hn; inversion Hn|].
      intros n [ws Hws]. rewrite lookup_empty in Hws. discriminate. }
    case_bool_decide as Hsize; simpl; [exact Hempty|].
    assert (wsConnectionsRef pg = ∅) as ->; [|exact Hempty].
    apply map_size_empty_iff. lia.
  - rewrite bool_decide_eq_false_2 by discriminate.
    remember (kb :: kbs) as tracked eqn:Htracked. clear Htracked Hskip kb kbs.
    simpl. split.
    + intros n Hn. apply connect_all_occupied. right. exact Hn.
    + intros n Hn. apply connect_all_keys in Hn as [Hn|Hn]; [|exact Hn].
      simpl in Hn. destruct Hn as [ws Hws].
      apply map_lookup_filter_Some in Hws as [_ Hin]. exact Hin.
Qed.

(** On a registry that matches the tracked names, a run opens nothing, closes
    nothing and leaves the registry as it is. *)
Lemma sync_on_reconciled (loading : bool) (kbs : list KnowledgeBase) (pg : Page) :
  reconciled (name <$> kbs) (wsConnectionsRef pg) →
  (syncConnections loading kbs pg).2 = []
  ∧ wsConnectionsRef (syncConnections loading kbs pg).1 = wsConnectionsRef pg.
Proof.
  intros [Hall Honly]. unfold syncConnections.
  destruct loading; [split; reflexivity|].
  destruct (_ && _ && _); [split; reflexivity|].
  destruct kbs as [|kb kbs].
  - rewrite bool_decide_eq_true_2 by reflexivity.
    assert (wsConnectionsRef pg = ∅) as Hempty.
    { apply map_eq. intros n. rewrite lookup_empty.
      destruct (wsConnectionsRef pg !! n) as [ws|] eqn:Hn; [|reflexivity].
      exfalso. assert (n ∈ (name <$> [])) as Hin by (apply Honly; eauto).
      inversion Hin. }
    case_bool_decide as Hsize; simpl.
    + rewrite Hempty. split; [apply closes_empty | reflexivity].
    + split; reflexivity.
  - rewrite bool_decide_eq_false_2 by discriminate.
    remember (kb :: kbs) as tracked eqn:Htracked. clear Htracked kb kbs.
    assert (filter (fun entry : string * WebSocket => entry.1 ∈ name <$> tracked)
              (wsConnectionsRef pg) = wsConnectionsRef pg) as Hkept.
    { apply map_filter_id. intros n ws Hws. simpl. apply Honly. eauto. }
    assert (filter (fun entry : string * WebSocket => ¬ entry.1 ∈ name <$> tracked)
              (wsConnectionsRef pg) = ∅) as Hdropped.
    { apply map_eq. intros n. rewrite lookup_empty. apply map_lookup_filter_None.
      right. intros ws Hws Hnot. apply Hnot. simpl. apply Honly. eauto. }
    simpl. rewrite Hkept, Hdropped, closes_empty.
    rewrite connect_all_noop by exact Hall. split; reflexivity.
Qed.

Lemma reconciled_Permutation (l1 l2 : list string) (m : gmap string WebSocket) :
  l1 ≡ₚ l2 → reconciled l1 m → reconciled l2 m.
Proof.
  intros Hperm [Hall Honly]. split.
  - intros n Hn. apply Hall. rewrite Hperm. exact Hn.
  - intros n Hn. rewrite <- Hperm. apply Honly. exact Hn.
Qed.

(** X27.  A second run of the effect with the same tracked names (in any order),
    right after a first one, opens no socket, closes none and leaves the
    registry as the first run left it, whether or not it returns early. *)
Theorem sync_twice_opens_and_closes_nothing (loading : bool)
    (kbs kbs' : list KnowledgeBase) (pg : Page) :
  name <$> kbs' ≡ₚ name <$> kbs →
  (syncConnections loading kbs' (syncConnections loading kbs pg).1).2 = []
  ∧ wsConnectionsRef (syncConnections loading kbs' (syncConnections loading kbs pg).1).1
    = wsConnectionsRef (syncConnections loading kbs pg).1.
Proof.
  intros Hperm. destruct loading; [split; reflexivity|].
  destruct (unchangedNames kbs pg) eqn:Hskip.
  - rewrite (sync_unchangedNames false kbs pg Hskip). cbn [fst].
    rewrite (sync_unchangedNames false kbs' pg); [split; reflexivity|].
    rewrite (unchangedNames_Permutation kbs kbs' pg Hperm). exact Hskip.
  - apply sync_on_reconciled.
    apply (reconciled_Permutation (name <$> kbs)); [symmetry; exact Hperm|].
    apply sync_reconciles. exact Hskip.
Qed.

End RegistryFacts.

(** ** Properties of the session hook *)

Module SessionFacts.
Import UseSolverSession Notions.

(** *** [addMessage] *)


Lemma addMessage_catch (r : Role) (c : string) (outputDir : option string)
    (outcome : FetchOutcome) (nowIso : string) (h : Hook) (s : SolverSession) :
  appendFailed outcome = true →
  addMessage (Some s) r c outputDir outcome nowIso h =
    (saveToCache (updatedSession s r c outputDir nowIso)
       (setSession (Some (updatedSession s r c outputDir nowIso))
          (send (appendRequest s r c outputDir) h)),
     Some (updatedSession s r c outputDir nowIso)).
Proof.
  intros Hfail. unfold addMessage.
  destruct outcome as [|ok json]; [reflexivity|].
  destruct ok; [discriminate Hfail|]. reflexivity.
Qed.

Lemma saveToCache_cached (s : SolverSession) (h : Hook) :
  LocalStorage.accepts (localStorage h) = true →
  loadFromCache (saveToCache s h) = Some s.
Proof.
  intros Hok. unfold loadFromCache, saveToCache, LocalStorage.trySetItem,
    LocalStorage.setItem, LocalStorage.getItem. simpl. rewrite Hok. simpl.
  apply lookup_insert_eq.
Qed.

(** The sum of two integral numbers is exact as long as it stays below
    [2^53] in magnitude. *)
Lemma add_exact (a b : Z) : Z.abs (a + b) < 2 ^ 53 → Js.add a b = a + b.
Proof.
  intros Hsmall. unfold Js.add, Js.roundToDouble.
  apply Z.ltb_lt in Hsmall. rewrite Hsmall. reflexivity.
Qed.


(** *** Timers *)

Lemma func_requests (s : SolverSession) (h : Hook) :
  requests (func s h)
  = (requests h ++ (if Js.truthy_string (id s) then [saveRequest s] else []))%list.
Proof.
  unfold func. destruct (Js.truthy_string (id s)); simpl.
  - reflexivity.
  - rewrite app_nil_r. reflexivity.
Qed.

Lemma func_rest (s : SolverSession) (h : Hook) :
  timers (func s h) = timers h ∧ timeout (func s h) = timeout h
  ∧ clock (func s h) = clock h ∧ nextHandle (func s h) = nextHandle h.
Proof. unfold func. destruct (negb _); repeat split; reflexivity. Qed.

Lemma fire_requests (fired : list Timer) (h : Hook) :
  requests (fold_left (fun acc tm => func (args tm) acc) fired h)
  = (requests h ++ flat_map written fired)%list.
Proof.
  revert h. induction fired as [|tm fired IH]; intros h; simpl.
  - rewrite app_nil_r. reflexivity.
  - rewrite IH, func_requests. unfold written at 2. rewrite <- app_assoc. reflexivity.
Qed.

Lemma fire_rest (fired : list Timer) (h : Hook) :
  timers (fold_left (fun acc tm => func (args tm) acc) fired h) = timers h
  ∧ timeout (fold_left (fun acc tm => func (args tm) acc) fired h) = timeout h
  ∧ clock (fold_left (fun acc tm => func (args tm) acc) fired h) = clock h
  ∧ nextHandle (fold_left (fun acc tm => func (args tm) acc) fired h) = nextHandle h.
Proof.
  revert h. induction fired as [|tm fired IH]; intros h; simpl.
  - repeat split; reflexivity.
  - destruct (IH (func (args tm) h)) as (Ht & Hto & Hc & Hn).
    destruct (func_rest (args tm) h) as (Ht' & Hto' & Hc' & Hn').
    repeat split; congruence.
Qed.

(** The writes of a run of the event loop are those of the timers due. *)
Lemma elapse_requests (t : Z) (h : Hook) :
  requests (elapse t h) = (requests h ++ writtenBy t (timers h))%list.
Proof. unfold elapse. rewrite fire_requests. reflexivity. Qed.

Lemma elapse_timers (t : Z) (h : Hook) :
  timers (elapse t h) = filter (fun tm => ¬ due tm ≤ t) (timers h).
Proof. unfold elapse. destruct (fire_rest (filter (fun tm => due tm ≤ t) (timers h))
  (setClock (Z.max (clock h) t)
     (setTimers (filter (fun tm => ¬ due tm ≤ t) (timers h)) (nextHandle h) h)))
  as (Ht & _). rewrite Ht. reflexivity. Qed.

Lemma elapse_timeout (t : Z) (h : Hook) : timeout (elapse t h) = timeout h.
Proof. unfold elapse. destruct (fire_rest (filter (fun tm => due tm ≤ t) (timers h))
  (setClock (Z.max (clock h) t)
     (setTimers (filter (fun tm => ¬ due tm ≤ t) (timers h)) (nextHandle h) h)))
  as (_ & Hto & _). rewrite Hto. reflexivity. Qed.

Lemma elapse_clock (t : Z) (h : Hook) : clock (elapse t h) = Z.max (clock h) t.
Proof. unfold elapse. destruct (fire_rest (filter (fun tm => due tm ≤ t) (timers h))
  (setClock (Z.max (clock h) t)
     (setTimers (filter (fun tm => ¬ due tm ≤ t) (timers h)) (nextHandle h) h)))
  as (_ & _ & Hc & _). rewrite Hc. reflexivity. Qed.

(** The same for the event loop up to a task. *)
Lemma reach_requests (t : Z) (h : Hook) :
  requests (reach t h)
  = (requests h ++ flat_map written (filter (fun tm => due tm < t) (timers h)))%list.
Proof. unfold reach. rewrite fire_requests. reflexivity. Qed.

Lemma reach_timers (t : Z) (h : Hook) :
  timers (reach t h) = filter (fun tm => ¬ due tm < t) (timers h).
Proof. unfold reach. destruct (fire_rest (filter (fun tm => due tm < t) (timers h))
  (setClock (Z.max (clock h) t)
     (setTimers (filter (fun tm => ¬ due tm < t) (timers h)) (nextHandle h) h)))
  as (Ht & _). rewrite Ht. reflexivity. Qed.

Lemma reach_timeout (t : Z) (h : Hook) : timeout (reach t h) = timeout h.
Proof. unfold reach. destruct (fire_rest (filter (fun tm => due tm < t) (timers h))
  (setClock (Z.max (clock h) t)
     (setTimers (filter (fun tm => ¬ due tm < t) (timers h)) (nextHandle h) h)))
  as (_ & Hto & _). rewrite Hto. reflexivity. Qed.

Lemma reach_clock (t : Z) (h : Hook) : clock (reach t h) = Z.max (clock h) t.
Proof. unfold reach. destruct (fire_rest (filter (fun tm => due tm < t) (timers h))
  (setClock (Z.max (clock h) t)
     (setTimers (filter (fun tm => ¬ due tm < t) (timers h)) (nextHandle h) h)))
  as (_ & _ & Hc & _). rewrite Hc. reflexivity. Qed.

(** *** [debounce] *)

Lemma debounced_arms (debounceMs : Z) (s : SolverSession) (h : Hook) :
  (timers h = [] ∨ ∃ tm, timers h = [tm] ∧ timeout h = Some (handle tm)) →
  armed debounceMs (clock h) s (debounced debounceMs s h)
  ∧ requests (debounced debounceMs s h) = requests h.
Proof.
  intros Hpending. unfold debounced, armed.
  assert (timers (match timeout h with
                  | Some hd => clearTimeout hd h
                  | None => h
                  end) = []) as Hcleared.
  { destruct Hpending as [Hnil | (tm & Htm & Hto)].
    - destruct (timeout h); simpl; rewrite Hnil; reflexivity.
    - rewrite Hto. simpl. rewrite Htm. rewrite filter_cons_False by (intros Hne; apply Hne; reflexivity).
      reflexivity. }
  destruct (timeout h) as [hd|]; simpl in *; rewrite Hcleared; simpl;
    (split; [eexists; repeat split; reflexivity | reflexivity]).
Qed.

(** A call while the pending timer is not yet due, or due at this very
    instant, replaces it and writes nothing. *)
Lemma saveAt_arms (debounceMs : Z) (t : Z) (s : SolverSession) (h : Hook) :
  clock h ≤ t →
  (timers h = [] ∨ ∃ tm, timers h = [tm] ∧ timeout h = Some (handle tm) ∧ t ≤ due tm) →
  armed debounceMs t s (saveAt debounceMs (t, s) h)
  ∧ requests (saveAt debounceMs (t, s) h) = requests h.
Proof.
  intros Hclock Hpending. unfold saveAt, debouncedSave. cbn [fst snd].
  assert (timers (reach t h) = timers h
          ∧ flat_map written (filter (fun tm => due tm < t) (timers h)) = [])
    as [Hsame Hnone].
  { rewrite reach_timers.
    destruct Hpending as [Hnil | (tm & Htm & _ & Hdue)].
    - rewrite Hnil. split; reflexivity.
    - rewrite Htm. rewrite filter_cons_True by (simpl; lia).
      rewrite filter_cons_False by (simpl; lia). split; reflexivity. }
  destruct (debounced_arms debounceMs s (reach t h)) as [Harmed Hreq].
  - rewrite Hsame, reach_timeout.
    destruct Hpending as [Hnil | (tm & Htm & Hto & _)]; [left; exact Hnil|].
    right. exists tm. split; assumption.
  - rewrite reach_clock in Harmed. replace (Z.max (clock h) t) with t in Harmed by lia.
    split; [exact Harmed|].
    rewrite Hreq, reach_requests, Hnone, app_nil_r. reflexivity.
Qed.

Lemma last_cons_default {A} (l : list A) (a d : A) :
  List.last (a :: l) d = List.last l a.
Proof.
  revert a d. induction l as [|b l IH]; intros a d; [reflexivity|].
  change (List.last (a :: b :: l) d) with (List.last (b :: l) d).
  rewrite (IH b d), (IH b a). reflexivity.
Qed.

Lemma savesAt_quiet (debounceMs : Z) (calls : list (Z * SolverSession)) (t : Z)
    (s : SolverSession) (h : Hook) :
  armed debounceMs t s h →
  quiet debounceMs t calls →
  armed debounceMs (List.last calls (t, s)).1 (List.last calls (t, s)).2
    (savesAt debounceMs calls h)
  ∧ requests (savesAt debounceMs calls h) = requests h.
Proof.
  revert t s h. induction calls as [|[t' s'] calls IH]; intros t s h Harmed Hquiet.
  - simpl. split; [exact Harmed | reflexivity].
  - destruct Hquiet as (Hle & Hlt & Hquiet). simpl in Hle, Hlt, Hquiet.
    destruct Harmed as (hd & Htm & Hto & Hclock).
    destruct (saveAt_arms debounceMs t' s' h) as [Harmed' Hreq'].
    + lia.
    + right. eexists. split; [exact Htm|]. split; [exact Hto|]. simpl. lia.
    + destruct (IH t' s' (saveAt debounceMs (t', s') h) Harmed' Hquiet) as [Hfinal Hreq].
      change (savesAt debounceMs ((t', s') :: calls) h)
        with (savesAt debounceMs calls (saveAt debounceMs (t', s') h)).
      replace (List.last ((t', s') :: calls) (t, s)) with (List.last calls (t', s')).
      * split; [exact Hfinal | congruence].
      * symmetry. apply last_cons_default.
Qed.

(** C8, as the code has it.  [N ≥ 1] calls of the debounced save, each less
    than the delay after the one before, leave exactly one timer pending, set
    for the arguments of the last call, and write nothing while they go on;
    once the delay has passed after the last call the wrapped function has
    run exactly once, on the arguments of the last call: it has issued one
    [PUT] for a session that has an id, and none for a session without. *)
Theorem debounce_collapses_calls (debounceMs : Z) (first : Z * SolverSession)
    (rest : list (Z * SolverSession)) (T : Z) (h : Hook) :
  timers h = [] →
  clock h ≤ first.1 →
  quiet debounceMs first.1 rest →
  (List.last rest first).1 + Z.max 0 debounceMs ≤ T →
  (∃ hd, timers (savesAt debounceMs (first :: rest) h)
         = [ {| handle := hd; due := (List.last rest first).1 + Z.max 0 debounceMs;
                args := (List.last rest first).2 |} ]
         ∧ timeout (savesAt debounceMs (first :: rest) h) = Some hd)
  ∧ requests (savesAt debounceMs (first :: rest) h) = requests h
  ∧ timers (elapse T (savesAt debounceMs (first :: rest) h)) = []
  ∧ requests (elapse T (savesAt debounceMs (first :: rest) h))
    = (requests h ++
       (if Js.truthy_string (id (List.last rest first).2)
        then [saveRequest (List.last rest first).2] else []))%list.
Proof.
  intros Hidle Hclock Hquiet Hlate. destruct first as [t1 s1]. simpl in Hclock, Hquiet.
  destruct (saveAt_arms debounceMs t1 s1 h Hclock (or_introl Hidle)) as [Harmed1 Hreq1].
  destruct (savesAt_quiet debounceMs rest t1 s1 _ Harmed1 Hquiet) as [Harmed Hreq].
  change (savesAt debounceMs ((t1, s1) :: rest) h)
    with (savesAt debounceMs rest (saveAt debounceMs (t1, s1) h)).
  destruct Harmed as (hd & Htm & Hto & Hc).
  split; [exists hd; split; assumption|].
  split; [congruence|].
  split.
  - rewrite elapse_timers, Htm. rewrite filter_cons_False by (simpl; lia). reflexivity.
  - rewrite elapse_requests, Htm, Hreq, Hreq1. unfold writtenBy.
    rewrite filter_cons_True by (simpl; lia). simpl. unfold written. simpl.
    rewrite app_nil_r. reflexivity.
Qed.

(** *** [clearSession] and the debounced save *)

(** What a component can do with the hook sets no timer and sends nothing but
    the [POST] of [addMessage]. *)
Lemma use_sets_no_timer (u : Use) (h : Hook) :
  offered u = true →
  timers h = [] →
  timers (use u h) = []
  ∧ ∃ new, requests (use u h) = (requests h ++ new)%list
           ∧ Forall (fun r => method r = "POST") new.
Proof.
  intros Hoffered Hidle.
  assert (∀ h' : Hook, timers h' = timers h → requests h' = requests h →
            timers h' = []
            ∧ ∃ new, requests h' = (requests h ++ new)%list
                     ∧ Forall (fun r => method r = "POST") new) as Hframe.
  { intros h' Ht Hr. split; [congruence|]. exists []. rewrite app_nil_r.
    split; [exact Hr | constructor]. }
  destruct u as [a|s]; [|apply Hframe; reflexivity].
  destruct a as
    [outcome | knowledgeBase outcome | captured r c outputDir outcome nowIso | |
     captured sessionId outcome | autoSave | debounceMs sessionToSave | t]; cbn [use step].
  - apply Hframe; unfold loadActiveSession, fallBack;
      destruct outcome as [|[] []]; cbn [fst];
      try reflexivity;
      match goal with |- context [loadFromCache ?x] => destruct (loadFromCache x) end;
      reflexivity.
  - apply Hframe; unfold createSession, saveNullToCache;
      destruct outcome as [|[] []]; cbn [fst]; try reflexivity;
      cbn [localStorage setSession]; destruct (LocalStorage.accepts (localStorage h));
      reflexivity.
  - destruct captured as [s|]; [|apply Hframe; reflexivity].
    split.
    + unfold addMessage. destruct outcome as [|[] []]; exact Hidle.
    + exists [appendRequest s r c outputDir]. split.
      * unfold addMessage. destruct outcome as [|[] []]; reflexivity.
      * constructor; [reflexivity | constructor].
  - apply Hframe; reflexivity.
  - apply Hframe; unfold deleteSession; destruct outcome as [|[] json]; try reflexivity;
      destruct captured as [s|]; try reflexivity;
      destruct (String.eqb (id s) sessionId); reflexivity.
  - apply Hframe; unfold autoSaveEffect; destruct (session h) as [s|]; try reflexivity;
      destruct (autoSave && _); reflexivity.
  - discriminate Hoffered.
  - apply Hframe.
    + rewrite elapse_timers, Hidle. reflexivity.
    + rewrite elapse_requests, Hidle. unfold writtenBy. simpl. apply app_nil_r.
Qed.

Lemma uses_set_no_timer (us : list Use) (h : Hook) :
  forallb offered us = true →
  timers h = [] →
  timers (uses us h) = []
  ∧ ∃ new, requests (uses us h) = (requests h ++ new)%list
           ∧ Forall (fun r => method r = "POST") new.
Proof.
  revert h. induction us as [|u us IH]; intros h Hall Hidle.
  - split; [exact Hidle|]. exists []. rewrite app_nil_r. split; [reflexivity | constructor].
  - simpl in Hall. apply andb_true_iff in Hall as [Hu Hus].
    destruct (use_sets_no_timer u h Hu Hidle) as (Hidle' & new1 & Hreq1 & Hpost1).
    destruct (IH (use u h) Hus Hidle') as (Hfinal & new2 & Hreq2 & Hpost2).
    split; [exact Hfinal|]. exists (new1 ++ new2)%list. split.
    + change (uses (u :: us) h) with (uses us (use u h)).
      rewrite Hreq2, Hreq1, app_assoc. reflexivity.
    + apply Forall_app. split; assumption.
Qed.


End SessionFacts.

(** ** More properties of the session hook *)

Module SessionMoreFacts.
Import UseSolverSession Notions.

(** *** Loading *)

Lemma fallBack_result (h otherwise : Hook) :
  (fallBack h otherwise).2 = loadFromCache h.
Proof. unfold fallBack. destruct (loadFromCache h); reflexivity. Qed.

Lemma fallBack_session (h otherwise : Hook) (s : SolverSession) :
  (fallBack h otherwise).2 = Some s → session (fallBack h otherwise).1 = Some s.
Proof.
  unfold fallBack. destruct (loadFromCache h); simpl; intros Heq; [exact Heq | discriminate].
Qed.

Lemma loadActiveSession_result (outcome : FetchOutcome) (h : Hook) :
  (loadActiveSession outcome h).2
    = match authoritative outcome with
      | Some data => Some data
      | None => loadFromCache h
      end.
Proof.
  unfold loadActiveSession. cbn [snd].
  destruct outcome as [|[] []]; cbn [authoritative]; try reflexivity;
    rewrite fallBack_result; reflexivity.
Qed.

Lemma loadActiveSession_session (outcome : FetchOutcome) (h : Hook) (s : SolverSession) :
  (loadActiveSession outcome h).2 = Some s →
  session (loadActiveSession outcome h).1 = Some s.
Proof.
  unfold loadActiveSession. cbn [fst snd].
  destruct outcome as [|[] []]; cbn [fst snd];
    try (intros Heq; apply fallBack_session in Heq; exact Heq).
  intros Heq. exact Heq.
Qed.

(** X1.  [loadActiveSession] answers the session of the authoritative source when
    it hands one over, and the cached session otherwise; so it answers [null]
    only when neither has one.  A session it answers is the session of the
    hook afterwards, and [isLoading] is off in every case. *)
Theorem loadActiveSession_prefers_backend_then_cache (outcome : FetchOutcome) (h : Hook) :
  (loadActiveSession outcome h).2
    = match authoritative outcome with
      | Some data => Some data
      | None => loadFromCache h
      end
  ∧ ((loadActiveSession outcome h).2 = None
     ↔ authoritative outcome = None ∧ loadFromCache h = None)
  ∧ (∀ s, (loadActiveSession outcome h).2 = Some s →
          session (loadActiveSession outcome h).1 = Some s)
  ∧ isLoading (loadActiveSession outcome h).1 = false.
Proof.
  pose proof (loadActiveSession_result outcome h) as Hres.
  split; [exact Hres|]. split; [|split].
  - rewrite Hres. destruct (authoritative outcome); [|tauto].
    split; [discriminate | intros [Hnone _]; discriminate].
  - intros s. apply loadActiveSession_session.
  - reflexivity.
Qed.

(** X2.  Without a cached session the two failures differ.  When [fetch] or
    [json()] throws, the session of the hook stays what it was and the error
    is set; when the response is not [ok], or its body is [null], the session
    is reset and no error is set.  Both answer [null]. *)
Theorem loadActiveSession_without_cache (outcome : FetchOutcome) (h : Hook) :
  loadFromCache h = None →
  authoritative outcome = None →
  (loadActiveSession outcome h).2 = None
  ∧ (outcome = FetchThrows ∨ outcome = Response true JsonThrows →
     session (loadActiveSession outcome h).1 = session h
     ∧ error (loadActiveSession outcome h).1 = Some "Failed to load session")
  ∧ (outcome ≠ FetchThrows → outcome ≠ Response true JsonThrows →
     session (loadActiveSession outcome h).1 = None
     ∧ error (loadActiveSession outcome h).1 = None).
Proof.
  intros Hcache Hauth.
  assert (∀ h1 other, loadFromCache h1 = None → fallBack h1 other = (other, None)) as Hfb.
  { intros h1 other Hn. unfold fallBack. rewrite Hn. reflexivity. }
  unfold loadActiveSession.
  destruct outcome as [|[] []]; try discriminate Hauth; cbn [fst snd];
    rewrite Hfb by exact Hcache; cbn [fst snd];
    (split; [reflexivity|]); split;
    try (intros [Heq|Heq]; discriminate Heq);
    try (intros _; split; reflexivity);
    try (intros Hne1 Hne2; split; reflexivity);
    try (intros Hne1 Hne2; exfalso; first [apply Hne1; reflexivity | apply Hne2; reflexivity]).
Qed.

(** *** Creating and deleting *)

(** X3.  [createSession] answers a session exactly when the [POST] succeeds with a
    session in its body.  When [fetch] throws or the response is not [ok], it
    answers [null], sets the error, and leaves the session, the marker of the
    last messages and the cache as they were. *)
Theorem createSession_failure_keeps_state (knowledgeBase : string)
    (outcome : FetchOutcome) (h : Hook) :
  (createSession knowledgeBase outcome h).2 = authoritative outcome
  ∧ (appendFailed outcome = true →
     session (createSession knowledgeBase outcome h).1 = session h
     ∧ lastMessagesRef (createSession knowledgeBase outcome h).1 = lastMessagesRef h
     ∧ localStorage (createSession knowledgeBase outcome h).1 = localStorage h
     ∧ error (createSession knowledgeBase outcome h).1 = Some "Failed to create session").
Proof.
  split.
  - destruct outcome as [|[] []]; reflexivity.
  - intros Hfail. destruct outcome as [|[] json]; try discriminate Hfail;
      repeat split; reflexivity.
Qed.

(** X4.  [deleteSession] answers [true] exactly when the [DELETE] got a success
    status.  It clears the session and the cache when, in addition, the
    deleted session is the one its callback has captured as active, and
    leaves the whole state as it was in every other case; the marker of the
    last messages is never reset. *)
Theorem deleteSession_clears_only_active (captured : option SolverSession)
    (sessionId : string) (outcome : FetchOutcome) (h : Hook) :
  (deleteSession captured sessionId outcome h).2 = responseOk outcome
  ∧ (∀ s, responseOk outcome = true → captured = Some s → id s = sessionId →
          session (deleteSession captured sessionId outcome h).1 = None
          ∧ loadFromCache (deleteSession captured sessionId outcome h).1 = None)
  ∧ (responseOk outcome = false ∨ captured = None
     ∨ (∃ s, captured = Some s ∧ id s ≠ sessionId) →
     (deleteSession captured sessionId outcome h).1 = h)
  ∧ lastMessagesRef (deleteSession captured sessionId outcome h).1 = lastMessagesRef h.
Proof.
  unfold deleteSession. split; [|split; [|split]].
  - destruct outcome as [|[] json]; cbn [responseOk]; try reflexivity.
    destruct captured as [s|]; [|reflexivity].
    destruct (String.eqb (id s) sessionId); reflexivity.
  - intros s Hok Hs Hid. destruct outcome as [|[] json]; try discriminate Hok.
    rewrite Hs. apply String.eqb_eq in Hid. rewrite Hid. cbn [fst]. split; [reflexivity|].
    unfold loadFromCache, clearCache, LocalStorage.getItem, LocalStorage.removeItem.
    simpl. apply lookup_delete_eq.
  - intros Hcase. destruct outcome as [|[] json]; try reflexivity.
    destruct Hcase as [Hok | [Hnone | (s & Hs & Hne)]].
    + discriminate Hok.
    + rewrite Hnone. reflexivity.
    + rewrite Hs. apply String.eqb_neq in Hne. rewrite Hne. reflexivity.
  - destruct outcome as [|[] json]; try reflexivity.
    destruct captured as [s|]; [|reflexivity].
    destruct (String.eqb (id s) sessionId); reflexivity.
Qed.

End SessionMoreFacts.

Module SessionInvariants.
Import UseSolverSession Notions.

(** *** The cache mirrors the session *)

Lemma saveToCache_accepts (s : SolverSession) (h : Hook) :
  LocalStorage.accepts (localStorage (saveToCache s h)) = LocalStorage.accepts (localStorage h).
Proof.
  unfold saveToCache, LocalStorage.trySetItem, LocalStorage.setItem. simpl.
  destruct (LocalStorage.accepts (localStorage h)) eqn:Hok; simpl; [reflexivity | exact Hok].
Qed.

Lemma saveToCache_load (s : SolverSession) (h : Hook) :
  LocalStorage.accepts (localStorage h) = true → loadFromCache (saveToCache s h) = Some s.
Proof.
  intros Hok. unfold loadFromCache, saveToCache, LocalStorage.trySetItem,
    LocalStorage.setItem, LocalStorage.getItem. simpl. rewrite Hok. simpl.
  apply lookup_insert_eq.
Qed.

Lemma clearCache_load (h : Hook) : loadFromCache (clearCache h) = None.
Proof.
  unfold loadFromCache, clearCache, LocalStorage.getItem, LocalStorage.removeItem.
  simpl. apply lookup_delete_eq.
Qed.

Lemma adopt_coherent (data : SolverSession) (h : Hook) :
  LocalStorage.accepts (localStorage h) = true → coherent (adopt data h).
Proof.
  intros Hok. unfold coherent, adopt. split.
  - change (LocalStorage.accepts (localStorage (saveToCache data (setSession (Some data) h))) = true).
    rewrite saveToCache_accepts. exact Hok.
  - intros s Hs. simpl in Hs. injection Hs as <-.
    change (loadFromCache (saveToCache data (setSession (Some data) h)) = Some data).
    apply saveToCache_load. exact Hok.
Qed.

Lemma fallBack_coherent (h otherwise : Hook) :
  LocalStorage.accepts (localStorage h) = true →
  coherent otherwise →
  coherent (fallBack h otherwise).1.
Proof.
  intros Hok Hother. unfold fallBack.
  destruct (loadFromCache h) as [cached|] eqn:Hcached; [|exact Hother].
  split; [exact Hok|]. intros s Hs. simpl in Hs. injection Hs as <-. exact Hcached.
Qed.

Lemma func_localStorage (s : SolverSession) (h : Hook) :
  localStorage (func s h) = localStorage h ∧ session (func s h) = session h.
Proof. unfold func. destruct (negb _); split; reflexivity. Qed.

Lemma fire_localStorage (fired : list Timer) (h : Hook) :
  localStorage (fold_left (fun acc tm => func (args tm) acc) fired h) = localStorage h
  ∧ session (fold_left (fun acc tm => func (args tm) acc) fired h) = session h.
Proof.
  revert h. induction fired as [|tm fired IH]; intros h; simpl; [split; reflexivity|].
  destruct (IH (func (args tm) h)) as [Hls Hs].
  destruct (func_localStorage (args tm) h) as [Hls' Hs'].
  split; congruence.
Qed.

Lemma coherent_frame (h h' : Hook) :
  localStorage h' = localStorage h → session h' = session h → coherent h → coherent h'.
Proof.
  intros Hls Hs [Hok Hmirror]. unfold coherent, loadFromCache in *.
  rewrite Hls, Hs. split; assumption.
Qed.

Lemma written_coherent (h' h : Hook) (s' : SolverSession) :
  session h' = Some s' →
  localStorage h' = LocalStorage.trySetItem STORAGE_KEY s' (localStorage h) →
  LocalStorage.accepts (localStorage h) = true →
  coherent h'.
Proof.
  intros Hsess Hls Hok. unfold coherent, loadFromCache. rewrite Hls, Hsess.
  unfold LocalStorage.trySetItem, LocalStorage.setItem, LocalStorage.getItem.
  rewrite Hok. simpl. split; [reflexivity|].
  intros s Hs. injection Hs as <-. apply lookup_insert_eq.
Qed.

(** What [addMessage] does through a callback that has captured a session:
    the session it answers is that of the authoritative source, or the
    captured one with the message appended. *)
Lemma addMessage_shape (r : Role) (c : string) (outputDir : option string)
    (outcome : FetchOutcome) (nowIso : string) (h : Hook) (s0 : SolverSession) :
  (addMessage (Some s0) r c outputDir outcome nowIso h).2
    = Some (default (updatedSession s0 r c outputDir nowIso) (authoritative outcome))
  ∧ session (addMessage (Some s0) r c outputDir outcome nowIso h).1
    = Some (default (updatedSession s0 r c outputDir nowIso) (authoritative outcome))
  ∧ localStorage (addMessage (Some s0) r c outputDir outcome nowIso h).1
    = LocalStorage.trySetItem STORAGE_KEY
        (default (updatedSession s0 r c outputDir nowIso) (authoritative outcome))
        (localStorage h)
  ∧ (∀ data, authoritative outcome = Some data →
       lastMessagesRef (addMessage (Some s0) r c outputDir outcome nowIso h).1
       = JSON_stringify (messages data)).
Proof.
  unfold addMessage.
  destruct outcome as [|[] []]; cbn [authoritative default fst snd];
    repeat split; try (intros data' Hauth; discriminate Hauth).
  intros data' Hauth. injection Hauth as <-. reflexivity.
Qed.

Lemma autoSave_after (h : Hook) (s : SolverSession) :
  session h = Some s →
  session (autoSaveEffect true h) = Some s
  ∧ lastMessagesRef (autoSaveEffect true h) = JSON_stringify (messages s)
  ∧ (coherent h → loadFromCache (autoSaveEffect true h) = Some s)
  ∧ (lastMessagesRef h = JSON_stringify (messages s) → autoSaveEffect true h = h).
Proof.
  intros Hs. unfold autoSaveEffect. rewrite Hs. cbn [andb].
  destruct (String.eqb (JSON_stringify (messages s)) (lastMessagesRef h)) eqn:Heq;
    cbn [negb].
  - apply String.eqb_eq in Heq.
    split; [exact Hs|]. split; [symmetry; exact Heq|]. split.
    + intros [_ Hmirror]. apply Hmirror. exact Hs.
    + reflexivity.
  - apply String.eqb_neq in Heq.
    split; [exact Hs|]. split; [reflexivity|]. split.
    + intros [Hok _]. change (loadFromCache (saveToCache s h) = Some s).
      apply saveToCache_load. exact Hok.
    + intros Hlast. exfalso. apply Heq. symmetry. exact Hlast.
Qed.

Lemma step_coherent (a : Action) (h : Hook) : coherent h → coherent (step a h).
Proof.
  intros Hco. pose proof Hco as [Hok Hmirror]. destruct a as
    [outcome | knowledgeBase outcome | captured r c outputDir outcome nowIso | |
     captured sessionId outcome | autoSave | debounceMs sessionToSave | t]; cbn [step].
  - (* loadActiveSession *)
    unfold loadActiveSession. cbn [fst].
    apply (coherent_frame
      (match outcome with
       | Response true (JsonSession data) =>
           (adopt data (setError None (setIsLoading true h)), Some data)
       | Response true JsonNull =>
           fallBack (setError None (setIsLoading true h))
             (setSession None (setError None (setIsLoading true h)))
       | Response false _ =>
           fallBack (setError None (setIsLoading true h))
             (setSession None (setError None (setIsLoading true h)))
       | Response true JsonThrows =>
           fallBack (setError (Some "Failed to load session") (setError None (setIsLoading true h)))
             (setError (Some "Failed to load session") (setError None (setIsLoading true h)))
       | FetchThrows =>
           fallBack (setError (Some "Failed to load session") (setError None (setIsLoading true h)))
             (setError (Some "Failed to load session") (setError None (setIsLoading true h)))
       end).1); [reflexivity | reflexivity |].
    destruct outcome as [|[] []]; cbn [fst];
      try (apply adopt_coherent; exact Hok);
      apply fallBack_coherent; try exact Hok;
      try (split; [exact Hok | intros s Hs; discriminate Hs]);
      exact Hco.
  - (* createSession *)
    unfold createSession. destruct outcome as [|[] []]; cbn [fst]; try exact Hco.
    + split; [unfold saveNullToCache; simpl; rewrite Hok; exact Hok|].
      intros s Hs. unfold saveNullToCache in Hs. simpl in Hs. rewrite Hok in Hs.
      discriminate Hs.
    + apply adopt_coherent. exact Hok.
  - (* addMessage *)
    destruct captured as [s0|]; [|exact Hco].
    destruct (addMessage_shape r c outputDir outcome nowIso h s0) as (_ & Hsess & Hls & _).
    apply (written_coherent _ h _ Hsess Hls Hok).
  - (* clearSession *)
    split; [exact Hok | intros s Hs; discriminate Hs].
  - (* deleteSession *)
    unfold deleteSession. destruct outcome as [|[] json]; cbn [fst]; try exact Hco.
    destruct captured as [s0|]; [|exact Hco].
    destruct (String.eqb (id s0) sessionId); cbn [fst]; [|exact Hco].
    split; [exact Hok | intros s Hs; discriminate Hs].
  - (* autoSaveEffect *)
    unfold autoSaveEffect. destruct (session h) as [s0|] eqn:Hs0; [|exact Hco].
    destruct (autoSave && _); [|exact Hco].
    split.
    + change (LocalStorage.accepts (localStorage (saveToCache s0 h)) = true).
      rewrite saveToCache_accepts. exact Hok.
    + intros s Hs. simpl in Hs. rewrite Hs0 in Hs. injection Hs as <-.
      change (loadFromCache (saveToCache s0 h) = Some s0).
      apply saveToCache_load. exact Hok.
  - (* debouncedSave *)
    apply (coherent_frame h); [| | exact Hco];
      unfold debouncedSave, debounced; destruct (timeout h); reflexivity.
  - (* elapse *)
    unfold elapse.
    destruct (fire_localStorage (filter (fun tm => due tm ≤ t) (timers h))
      (setClock (Z.max (clock h) t)
         (setTimers (filter (fun tm => ¬ due tm ≤ t) (timers h)) (nextHandle h) h)))
      as [Hls Hs].
    apply (coherent_frame h); [exact Hls | exact Hs | exact Hco].
Qed.

(** X5.  Whatever the hook does (loading, creating, adding a message or deleting
    through the callback of any render, clearing, the auto-save effect,
    debounced saves and the timers firing) and whatever the network answers,
    a store that accepts writes keeps mirroring the session: whenever a
    session is active, it is the cached session. *)
Theorem cache_mirrors_session (actions : list Action) (h : Hook) :
  coherent h → coherent (run actions h).
Proof.
  revert h. induction actions as [|a actions IH]; intros h Hco; [exact Hco|].
  apply IH. apply step_coherent. exact Hco.
Qed.

(** *** The auto-save effect *)

(** X6.  The auto-save effect compares the messages only, as the text that
    [JSON.stringify] gives for them.  Run twice in a row it does nothing the
    second time; when [autoSave] is on and a session is active, the marker
    of the last messages is the text of its messages afterwards; a session
    whose messages have the text of the marker is not written to the cache,
    whatever else differs in it; and with [autoSave] on, a session whose
    messages have another text is written to the cache. *)
Theorem autoSaveEffect_watches_messages (autoSave : bool) (h : Hook) :
  autoSaveEffect autoSave (autoSaveEffect autoSave h) = autoSaveEffect autoSave h
  ∧ (∀ s, autoSave = true → session h = Some s →
          lastMessagesRef (autoSaveEffect autoSave h) = JSON_stringify (messages s))
  ∧ (∀ s, session h = Some s → lastMessagesRef h = JSON_stringify (messages s) →
          autoSaveEffect autoSave h = h)
  ∧ (∀ s, autoSave = true → session h = Some s →
          lastMessagesRef h ≠ JSON_stringify (messages s) →
          localStorage (autoSaveEffect autoSave h)
          = LocalStorage.trySetItem STORAGE_KEY s (localStorage h)).
Proof.
  split; [|split; [|split]].
  - destruct (session h) as [s|] eqn:Hs.
    + destruct (autoSave
                && negb (String.eqb (JSON_stringify (messages s)) (lastMessagesRef h)))
        eqn:Hcond.
      * assert (autoSaveEffect autoSave h
                = setLastMessages (JSON_stringify (messages s)) (saveToCache s h)) as ->.
        { unfold autoSaveEffect. rewrite Hs, Hcond. reflexivity. }
        unfold autoSaveEffect. simpl. rewrite Hs.
        rewrite String.eqb_refl. rewrite andb_false_r. reflexivity.
      * assert (autoSaveEffect autoSave h = h) as ->.
        { unfold autoSaveEffect. rewrite Hs, Hcond. reflexivity. }
        unfold autoSaveEffect. rewrite Hs, Hcond. reflexivity.
    + assert (autoSaveEffect autoSave h = h) as ->.
      { unfold autoSaveEffect. rewrite Hs. reflexivity. }
      unfold autoSaveEffect. rewrite Hs. reflexivity.
  - intros s -> Hs. destruct (autoSave_after h s Hs) as (_ & Hmark & _). exact Hmark.
  - intros s Hs Hlast. unfold autoSaveEffect. rewrite Hs, Hlast.
    rewrite String.eqb_refl. rewrite andb_false_r. reflexivity.
  - intros s -> Hs Hne. unfold autoSaveEffect. rewrite Hs.
    assert (String.eqb (JSON_stringify (messages s)) (lastMessagesRef h) = false) as ->.
    { apply String.eqb_neq. intros Heq. apply Hne. symmetry. exact Heq. }
    reflexivity.
Qed.

(** X7.  After [addMessage], through a callback that has captured a session, and
    the auto-save effect that follows the render, the session of the hook is
    the one [addMessage] answered, the marker of the last messages is the
    text of its messages, and the cache holds it whenever the store accepts
    writes; after an append that the authoritative source answered with a
    session, the effect has nothing left to do. *)
Theorem addMessage_then_autoSave (captured : option SolverSession) (r : Role)
    (c : string) (outputDir : option string) (outcome : FetchOutcome) (nowIso : string)
    (h : Hook) (s : SolverSession) :
  captured = Some s →
  ∃ s',
    session (autoSaveEffect true (addMessage captured r c outputDir outcome nowIso h).1)
      = Some s'
    ∧ (addMessage captured r c outputDir outcome nowIso h).2 = Some s'
    ∧ lastMessagesRef (autoSaveEffect true (addMessage captured r c outputDir outcome nowIso h).1)
      = JSON_stringify (messages s')
    ∧ (LocalStorage.accepts (localStorage h) = true →
       loadFromCache (autoSaveEffect true (addMessage captured r c outputDir outcome nowIso h).1)
       = Some s')
    ∧ (authoritative outcome = Some s' →
       autoSaveEffect true (addMessage captured r c outputDir outcome nowIso h).1
       = (addMessage captured r c outputDir outcome nowIso h).1).
Proof.
  intros ->.
  destruct (addMessage_shape r c outputDir outcome nowIso h s)
    as (Hres & Hsess & Hls & Hlast).
  destruct (autoSave_after _ _ Hsess) as (Hsess' & Hmark & Hcache & Hnoop).
  eexists. split; [exact Hsess'|]. split; [exact Hres|]. split; [exact Hmark|].
  split.
  - intros Hok. apply Hcache. apply (written_coherent _ h _ Hsess Hls Hok).
  - intros Hauth. apply Hnoop. rewrite Hauth in Hlast |- *. apply (Hlast _ eq_refl).
Qed.

End SessionInvariants.

Module SessionRoundTrips.
Import UseSolverSession Notions SessionFacts SessionMoreFacts SessionInvariants.

(** *** Across a reload *)

(** X8.  A message appended while the authoritative source was failing survives a
    reload: a fresh hook over the same store, whose load the authoritative
    source cannot answer either, gets the session with the appended message
    back from the cache. *)
Theorem offline_append_survives_reload (r : Role) (c : string)
    (outputDir : option string) (outcome reload : FetchOutcome) (nowIso : string)
    (now : Z) (h : Hook) (s : SolverSession) :
  appendFailed outcome = true →
  authoritative reload = None →
  LocalStorage.accepts (localStorage h) = true →
  (loadActiveSession reload
     (initialHook (localStorage (addMessage (Some s) r c outputDir outcome nowIso h).1) now)).2
  = Some (updatedSession s r c outputDir nowIso)
  ∧ session (loadActiveSession reload
       (initialHook (localStorage (addMessage (Some s) r c outputDir outcome nowIso h).1)
          now)).1
    = Some (updatedSession s r c outputDir nowIso).
Proof.
  intros Hfail Hreload Hok.
  assert ((loadActiveSession reload
             (initialHook (localStorage (addMessage (Some s) r c outputDir outcome nowIso h).1)
                now)).2
          = Some (updatedSession s r c outputDir nowIso)) as Hres.
  { rewrite loadActiveSession_result, Hreload.
    destruct (addMessage_shape r c outputDir outcome nowIso h s) as (_ & _ & Hls & _).
    unfold loadFromCache. cbn [initialHook localStorage]. rewrite Hls.
    assert (authoritative outcome = None) as ->.
    { destruct outcome as [|[] json]; [reflexivity | discriminate Hfail | reflexivity]. }
    cbn [default]. unfold LocalStorage.trySetItem, LocalStorage.setItem, LocalStorage.getItem.
    rewrite Hok. simpl. apply lookup_insert_eq. }
  split; [exact Hres|]. apply loadActiveSession_session. exact Hres.
Qed.

(** X9.  A session that was cleared, or deleted through a callback that has it
    as the active one, does not come back from the cache: a load that the
    authoritative source cannot answer gives no session. *)
Theorem cleared_session_not_restored (reload : FetchOutcome) (h : Hook) :
  authoritative reload = None →
  ((loadActiveSession reload (clearSession h)).2 = None
   ∧ session (loadActiveSession reload (clearSession h)).1 = None)
  ∧ (∀ s outcome, responseOk outcome = true →
       (loadActiveSession reload (deleteSession (Some s) (id s) outcome h).1).2 = None
       ∧ session (loadActiveSession reload (deleteSession (Some s) (id s) outcome h).1).1
         = None).
Proof.
  intros Hreload.
  assert (∀ h0, loadFromCache h0 = None → session h0 = None →
                (loadActiveSession reload h0).2 = None
                ∧ session (loadActiveSession reload h0).1 = None) as Hgone.
  { intros h0 Hcache Hsess. split.
    - rewrite loadActiveSession_result, Hreload. exact Hcache.
    - unfold loadActiveSession, fallBack. cbn [fst].
      assert (∀ e, loadFromCache (setError e (setError None (setIsLoading true h0))) = None)
        as Hc1 by (intros e; exact Hcache).
      assert (loadFromCache (setError None (setIsLoading true h0)) = None) as Hc2 by exact Hcache.
      destruct reload as [|[] []]; try discriminate Hreload; cbn [fst];
        rewrite ?Hc1, ?Hc2; cbn [fst]; first [reflexivity | exact Hsess]. }
  split.
  - apply Hgone; [apply clearCache_load | reflexivity].
  - intros s outcome Hok.
    assert ((deleteSession (Some s) (id s) outcome h).1 = setSession None (clearCache h)) as ->.
    { unfold deleteSession. destruct outcome as [|[] json]; try discriminate Hok.
      rewrite String.eqb_refl. reflexivity. }
    apply Hgone; [apply clearCache_load | reflexivity].
Qed.

(** *** Calls outside the quiet period *)

Lemma saveAt_fires (debounceMs : Z) (t t' : Z) (s s' : SolverSession) (h : Hook) :
  armed debounceMs t s h →
  t + Z.max 0 debounceMs < t' →
  armed debounceMs t' s' (saveAt debounceMs (t', s') h)
  ∧ requests (saveAt debounceMs (t', s') h) = (requests h ++ saved s)%list.
Proof.
  intros (hd & Htm & Hto & Hclock) Hlate. unfold saveAt, debouncedSave. cbn [fst snd].
  destruct (debounced_arms debounceMs s' (reach t' h)) as [Harmed Hreq].
  - left. rewrite reach_timers, Htm. rewrite filter_cons_False by (simpl; lia). reflexivity.
  - rewrite reach_clock in Harmed. replace (Z.max (clock h) t') with t' in Harmed by lia.
    split; [exact Harmed|].
    rewrite Hreq, reach_requests, Htm.
    rewrite filter_cons_True by (simpl; lia). simpl. rewrite app_nil_r. reflexivity.
Qed.

Lemma spaced_saves_fire (debounceMs : Z) (calls : list (Z * SolverSession)) (t T : Z)
    (s : SolverSession) (h : Hook) :
  armed debounceMs t s h →
  spaced debounceMs t calls →
  (List.last calls (t, s)).1 + Z.max 0 debounceMs ≤ T →
  requests (elapse T (savesAt debounceMs calls h))
  = (requests h ++ saved s ++ flat_map (fun call => saved call.2) calls)%list
  ∧ timers (elapse T (savesAt debounceMs calls h)) = [].
Proof.
  revert t s h. induction calls as [|[t' s'] calls IH]; intros t s h Harmed Hspaced Hlate.
  - simpl in *. destruct Harmed as (hd & Htm & Hto & Hclock). split.
    + rewrite elapse_requests, Htm. unfold writtenBy.
      rewrite filter_cons_True by (simpl; lia). simpl. rewrite !app_nil_r. reflexivity.
    + rewrite elapse_timers, Htm. rewrite filter_cons_False by (simpl; lia). reflexivity.
  - destruct Hspaced as [Hgap Hspaced]. simpl in Hgap, Hspaced.
    destruct (saveAt_fires debounceMs t t' s s' h Harmed Hgap) as [Harmed' Hreq'].
    rewrite last_cons_default in Hlate.
    destruct (IH t' s' _ Harmed' Hspaced Hlate) as [Hreq Htimers].
    change (savesAt debounceMs ((t', s') :: calls) h)
      with (savesAt debounceMs calls (saveAt debounceMs (t', s') h)).
    split; [|exact Htimers].
    rewrite Hreq, Hreq'. simpl. rewrite <- !app_assoc. reflexivity.
Qed.

(** X10.  Calls of the debounced save that each come after the timer of the one
    before was due (more than the delay apart) are not collapsed: once the
    delay has passed after the last one, the wrapped save has run for each
    call in turn, so the writes issued are those of all the calls, in their
    order (one [PUT] per session that has an id), and no timer is left
    pending. *)
Theorem spaced_saves_all_fire (debounceMs : Z) (first : Z * SolverSession)
    (rest : list (Z * SolverSession)) (T : Z) (h : Hook) :
  timers h = [] →
  clock h ≤ first.1 →
  spaced debounceMs first.1 rest →
  (List.last rest first).1 + Z.max 0 debounceMs ≤ T →
  requests (elapse T (savesAt debounceMs (first :: rest) h))
  = (requests h ++ flat_map (fun call => saved call.2) (first :: rest))%list
  ∧ timers (elapse T (savesAt debounceMs (first :: rest) h)) = [].
Proof.
  intros Hidle Hclock Hspaced Hlate. destruct first as [t1 s1]. simpl in Hclock, Hspaced.
  destruct (saveAt_arms debounceMs t1 s1 h Hclock (or_introl Hidle)) as [Harmed1 Hreq1].
  destruct (spaced_saves_fire debounceMs rest t1 T s1 _ Harmed1 Hspaced Hlate)
    as [Hreq Htimers].
  change (savesAt debounceMs ((t1, s1) :: rest) h)
    with (savesAt debounceMs rest (saveAt debounceMs (t1, s1) h)).
  split; [|exact Htimers].
  rewrite Hreq, Hreq1. reflexivity.
Qed.

End SessionRoundTrips.

(** ** More properties of the progress map *)

Module ProgressMoreFacts.
Import KnowledgePage Notions ProgressFacts.

(** *** The store *)

Lemma trySetItem_accepts {V} (k : string) (v : V) (ls : LocalStorage.t V) :
  LocalStorage.accepts (LocalStorage.trySetItem k v ls) = LocalStorage.accepts ls.
Proof.
  unfold LocalStorage.trySetItem, LocalStorage.setItem.
  destruct (LocalStorage.accepts ls) eqn:Hok; simpl; [reflexivity | exact Hok].
Qed.

Lemma trySetItem_get {V} (k : string) (v : V) (ls : LocalStorage.t V) :
  LocalStorage.accepts ls = true →
  LocalStorage.getItem k (LocalStorage.trySetItem k v ls) = Some v.
Proof.
  intros Hok. unfold LocalStorage.trySetItem, LocalStorage.setItem, LocalStorage.getItem.
  rewrite Hok. simpl. apply lookup_insert_eq.
Qed.

Lemma trySetItem_twice {V} (k : string) (v v' : V) (ls : LocalStorage.t V) :
  LocalStorage.trySetItem k v' (LocalStorage.trySetItem k v ls)
  = LocalStorage.trySetItem k v' ls.
Proof.
  unfold LocalStorage.trySetItem, LocalStorage.setItem.
  destruct (LocalStorage.accepts ls) eqn:Hok; simpl.
  - rewrite insert_insert_eq. reflexivity.
  - rewrite Hok. reflexivity.
Qed.

Lemma trySetItem_same {V} (k : string) (v : V) (ls : LocalStorage.t V) :
  LocalStorage.getItem k ls = Some v → LocalStorage.trySetItem k v ls = ls.
Proof.
  intros Hget. unfold LocalStorage.trySetItem, LocalStorage.setItem.
  destruct ls as [items ok]. simpl in *. destruct ok; [|reflexivity].
  unfold LocalStorage.getItem in Hget. simpl in Hget.
  rewrite insert_id by exact Hget. reflexivity.
Qed.

Lemma written_mirrored (pg : Page) (m : gmap string ProgressInfo)
    (ls : LocalStorage.t (gmap string ProgressInfo)) :
  progressMap pg = m →
  localStorage pg = LocalStorage.trySetItem PROGRESS_KEY m ls →
  LocalStorage.accepts ls = true →
  mirrored pg.
Proof.
  intros Hm Hls Hok. unfold mirrored. rewrite Hls, Hm, trySetItem_accepts.
  split; [exact Hok | apply trySetItem_get; exact Hok].
Qed.

(** *** Clearing *)

(** X11.  [clearProgress] removes the record of the named knowledge base and no
    other; the store holds the reduced map whenever it accepts the write; and
    clearing a record that was stored for a knowledge base without one
    gives the map back as it was before. *)
Theorem clearProgress_removes_one_record (kbName : string) (pg : Page) :
  progressMap (clearProgress kbName pg) !! kbName = None
  ∧ (∀ n, n ≠ kbName →
          progressMap (clearProgress kbName pg) !! n = progressMap pg !! n)
  ∧ (LocalStorage.accepts (localStorage pg) = true →
     LocalStorage.getItem PROGRESS_KEY (localStorage (clearProgress kbName pg))
     = Some (progressMap (clearProgress kbName pg)))
  ∧ (∀ progress, progressMap pg !! kbName = None →
       progressMap (clearProgress kbName (storeProgress kbName progress pg))
       = progressMap pg).
Proof.
  split; [|split; [|split]].
  - simpl. apply lookup_delete_eq.
  - intros n Hne. simpl. apply lookup_delete_ne. congruence.
  - intros Hok. simpl. apply trySetItem_get. exact Hok.
  - intros progress Hnone. simpl. rewrite delete_insert_eq.
    apply delete_id. exact Hnone.
Qed.

Lemma finished_kept (now : Z) `{Js.DateImpl} (r : ProgressInfo) :
  finished r = true → keptOnRestore now r = true.
Proof.
  unfold keptOnRestore, finished. intros Hf.
  destruct (timestamp r) as [ts|]; [|exact Hf].
  destruct (Js.truthy_timestamp ts); [|exact Hf].
  rewrite Hf. reflexivity.
Qed.

(** X12.  [clearAllStuckProgress] keeps exactly the completed and error records
    (but for one under the name [__proto__], which its assignment to
    [cleaned] loses); a second run right after changes nothing; and every
    record it keeps is one that the clean-up on mount keeps too, at any
    time. *)
Theorem clearAllStuckProgress_keeps_finished `{Js.DateImpl} (pg : Page) :
  (∀ k r, progressMap (clearAllStuckProgress pg) !! k = Some r
          ↔ progressMap pg !! k = Some r ∧ k ≠ "__proto__" ∧ finished r = true)
  ∧ clearAllStuckProgress (clearAllStuckProgress pg) = clearAllStuckProgress pg
  ∧ (∀ now k r, progressMap (clearAllStuckProgress pg) !! k = Some r →
                cleanStuck now (progressMap pg) !! k = Some r).
Proof.
  assert (∀ k r, progressMap (clearAllStuckProgress pg) !! k = Some r
                 ↔ progressMap pg !! k = Some r ∧ k ≠ "__proto__" ∧ finished r = true)
    as Hchar.
  { intros k r. cbn [clearAllStuckProgress progressMap].
    rewrite map_lookup_filter_Some. cbn [fst snd].
    rewrite Is_true_true, andb_true_iff. unfold Js.assignCreates.
    rewrite negb_true_iff, String.eqb_neq. reflexivity. }
  split; [exact Hchar|]. split.
  - unfold clearAllStuckProgress at 1 3. cbn [progressMap localStorage wsConnectionsRef kbsNamesRef].
    assert (filter (fun entry : string * ProgressInfo =>
                      Is_true (Js.assignCreates entry.1 && finished entry.2))
              (progressMap (clearAllStuckProgress pg))
            = progressMap (clearAllStuckProgress pg)) as ->.
    { apply map_filter_id. intros k r Hk. apply Hchar in Hk as (_ & Hne & Hf).
      cbn [fst snd]. apply Is_true_true. apply andb_true_iff. split; [|exact Hf].
      unfold Js.assignCreates. apply negb_true_iff. apply String.eqb_neq. exact Hne. }
    f_equal. cbn [clearAllStuckProgress localStorage]. apply trySetItem_twice.
  - intros now k r Hk. apply Hchar in Hk as (Hk & Hne & Hf).
    apply cleanStuck_lookup. split; [exact Hk|]. split; [exact Hne|].
    apply finished_kept. exact Hf.
Qed.

(** *** Restoring again *)

Section WithDate.
Context `{Js.DateImpl}.

Lemma kept_earlier (now now' : Z) (r : ProgressInfo) :
  now ≤ now' → keptOnRestore now' r = true → keptOnRestore now r = true.
Proof.
  intros Hle. unfold keptOnRestore.
  destruct (timestamp r) as [ts|]; [|exact id].
  destruct (Js.truthy_timestamp ts); [|exact id].
  destruct (String.eqb (stage r) "completed"); [reflexivity|].
  destruct (String.eqb (stage r) "error"); [reflexivity|]. simpl.
  destruct (Js.Date_getTime ts) as [|t]; simpl; [exact id|].
  rewrite !Z.ltb_lt. lia.
Qed.

Lemma cleanStuck_later (now now' : Z) (parsed : gmap string ProgressInfo) :
  now ≤ now' → cleanStuck now' (cleanStuck now parsed) = cleanStuck now' parsed.
Proof.
  intros Hle. apply map_eq. intros k.
  destruct (cleanStuck now' parsed !! k) as [r|] eqn:Hk.
  - apply cleanStuck_lookup in Hk as (Hk & Hne & Hkept).
    apply cleanStuck_lookup. split; [|split; assumption].
    apply cleanStuck_lookup. split; [exact Hk|]. split; [exact Hne|].
    apply (kept_earlier now now'); assumption.
  - destruct (cleanStuck now' (cleanStuck now parsed) !! k) as [r|] eqn:Hk'; [|reflexivity].
    apply cleanStuck_lookup in Hk' as (Hk' & Hne & Hkept).
    apply cleanStuck_lookup in Hk' as (Hk' & _).
    assert (cleanStuck now' parsed !! k = Some r) as Hin
      by (apply cleanStuck_lookup; split; [|split]; assumption).
    congruence.
Qed.

(** X13.  Restoring a second time, at the same or a later moment, gives the page
    that a single restore at that moment gives: the stuck records dropped
    by an earlier restore would be dropped by the later one, and nothing
    else changes.  In particular the restore is idempotent. *)
Theorem restoreProgress_again (now now' : Z) (pg : Page) :
  now ≤ now' →
  restoreProgress now' (restoreProgress now pg) = restoreProgress now' pg.
Proof.
  intros Hle. unfold restoreProgress at 2 3.
  destruct (LocalStorage.getItem PROGRESS_KEY (localStorage pg)) as [parsed|] eqn:Hsaved.
  - unfold restoreProgress. cbn [progressMap localStorage wsConnectionsRef kbsNamesRef].
    destruct (LocalStorage.accepts (localStorage pg)) eqn:Hok.
    + rewrite trySetItem_get by exact Hok.
      rewrite cleanStuck_later by exact Hle. rewrite trySetItem_twice. reflexivity.
    + assert (LocalStorage.trySetItem PROGRESS_KEY (cleanStuck now parsed) (localStorage pg)
              = localStorage pg) as ->.
      { unfold LocalStorage.trySetItem, LocalStorage.setItem. rewrite Hok. reflexivity. }
      rewrite Hsaved. reflexivity.
  - unfold restoreProgress. rewrite Hsaved. reflexivity.
Qed.

(** *** The store mirrors the map *)

Lemma sync_frame (loading : bool) (kbs : list KnowledgeBase) (pg : Page) :
  progressMap (syncConnections loading kbs pg).1 = progressMap pg
  ∧ localStorage (syncConnections loading kbs pg).1 = localStorage pg.
Proof.
  unfold syncConnections. destruct loading; [split; reflexivity|].
  destruct (_ && _ && _); [split; reflexivity|].
  destruct (bool_decide (length kbs = 0%nat)); [|split; reflexivity].
  destruct (bool_decide _); split; reflexivity.
Qed.

Lemma pageStep_mirrored (a : PageAction) (pg : Page) :
  mirrored pg → mirrored (pageStep a pg).
Proof.
  intros Hm. pose proof Hm as [Hok Hget].
  destruct a as [kb now event | kbName | | kbName nowIso | loading kbs | kbName rs | ];
    cbn [pageStep].
  - destruct (carried event) as [progress|] eqn:Hcar.
    + rewrite (onmessage_carried _ _ _ _ _ Hcar).
      destruct (rag_initialized (statistics kb) && staleInProgress now progress); [exact Hm|].
      eapply written_mirrored; [reflexivity | reflexivity | exact Hok].
    + rewrite onmessage_carried_none by exact Hcar. exact Hm.
  - eapply written_mirrored; [reflexivity | reflexivity | exact Hok].
  - eapply written_mirrored; [reflexivity | reflexivity | exact Hok].
  - eapply written_mirrored; [reflexivity | reflexivity | exact Hok].
  - destruct (sync_frame loading kbs pg) as [Hmap Hls].
    unfold mirrored. rewrite Hmap, Hls. exact Hm.
  - exact Hm.
  - exact Hm.
Qed.

(** X14.  On a mounted page the store is a write-through mirror of the progress
    map: if it accepts writes and holds the map, it still holds the map
    after any sequence of socket messages, clears, the start of a creation,
    runs of the socket effect, socket state changes and the unmount. *)
Theorem store_mirrors_progress_map (actions : list PageAction) (pg : Page) :
  mirrored pg → mirrored (pageRun actions pg).
Proof.
  revert pg. induction actions as [|a actions IH]; intros pg Hm; [exact Hm|].
  apply IH. apply pageStep_mirrored. exact Hm.
Qed.

(** X15.  Mounting on a store that accepts writes ends with the store holding the
    map of the page.  That map is the saved map as the restore effect cleans
    it: without its stuck records, and without a record saved under
    [__proto__]; without a saved map it is empty, and the empty map is what
    the mount writes. *)
Theorem mount_establishes_mirror (now : Z)
    (ls : LocalStorage.t (gmap string ProgressInfo)) :
  LocalStorage.accepts ls = true →
  mirrored (mount now ls)
  ∧ progressMap (mount now ls)
    = match LocalStorage.getItem PROGRESS_KEY ls with
      | Some saved => cleanStuck now saved
      | None => ∅
      end
  ∧ (∀ saved k r, LocalStorage.getItem PROGRESS_KEY ls = Some saved →
       (progressMap (mount now ls) !! k = Some r
        ↔ saved !! k = Some r ∧ k ≠ "__proto__" ∧ keptOnRestore now r = true)).
Proof.
  intros Hok.
  assert (progressMap (mount now ls)
          = match LocalStorage.getItem PROGRESS_KEY ls with
            | Some saved => cleanStuck now saved
            | None => ∅
            end) as Hmap.
  { unfold mount, restoreProgress. cbn [initialPage localStorage progressMap].
    destruct (LocalStorage.getItem PROGRESS_KEY ls); reflexivity. }
  split; [|split; [exact Hmap|]].
  - unfold mount, restoreProgress. cbn [initialPage localStorage progressMap].
    destruct (LocalStorage.getItem PROGRESS_KEY ls) as [saved|] eqn:Hsaved.
    + eapply written_mirrored; [reflexivity | reflexivity |].
      cbn [persistProgress localStorage]. rewrite !trySetItem_accepts. exact Hok.
    + eapply written_mirrored; [reflexivity | reflexivity | exact Hok].
  - intros saved k r Hsaved. rewrite Hmap, Hsaved. apply cleanStuck_lookup.
Qed.

(** *** One socket, one record *)

(** X16.  A message on the socket of a knowledge base touches at most the record of
    that knowledge base: the records of all others, the registry and the
    tracked names are left as they were; and a payload that does not parse,
    or is not a progress message with data, changes nothing at all. *)
Theorem onmessage_touches_own_record_only (kb : KnowledgeBase) (now : Z)
    (event : MessageEvent) (pg : Page) :
  (∀ n, n ≠ name kb →
        progressMap (onmessage kb now event pg) !! n = progressMap pg !! n)
  ∧ wsConnectionsRef (onmessage kb now event pg) = wsConnectionsRef pg
  ∧ kbsNamesRef (onmessage kb now event pg) = kbsNamesRef pg
  ∧ (carried event = None → onmessage kb now event pg = pg).
Proof.
  destruct (carried event) as [progress|] eqn:Hcar.
  - rewrite (onmessage_carried _ _ _ _ _ Hcar).
    destruct (rag_initialized (statistics kb) && staleInProgress now progress).
    + repeat split.
    + split; [|split; [|split]]; try reflexivity.
      * intros n Hne. simpl. apply lookup_insert_ne. congruence.
      * intros Hne. discriminate Hne.
  - rewrite onmessage_carried_none by exact Hcar. repeat split.
Qed.

Lemma onmessage_accepted (kb : KnowledgeBase) (ev : Z * MessageEvent) (pg : Page) :
  progressMap (onmessage kb ev.1 ev.2 pg) !! name kb
  = match accepted kb ev with
    | Some progress => Some progress
    | None => progressMap pg !! name kb
    end.
Proof.
  unfold accepted. destruct (carried ev.2) as [progress|] eqn:Hcar.
  - rewrite (onmessage_carried _ _ _ _ _ Hcar).
    destruct (rag_initialized (statistics kb) && staleInProgress ev.1 progress);
      [reflexivity | apply storeProgress_lookup].
  - rewrite onmessage_carried_none by exact Hcar. reflexivity.
Qed.

(** X17.  The last accepted record wins.  After a sequence of messages on the
    socket of a knowledge base, its stored record is the record of the last
    message of the sequence that the socket accepts, and the record stored
    before when it accepts none.  A socket created for a knowledge base that
    was not initialised accepts every record that a progress message
    carries. *)
Theorem last_accepted_record_wins (kb : KnowledgeBase)
    (events : list (Z * MessageEvent)) (pg : Page) :
  progressMap (receiveAll kb events pg) !! name kb
  = match last (omap (accepted kb) events) with
    | Some progress => Some progress
    | None => progressMap pg !! name kb
    end
  ∧ (rag_initialized (statistics kb) = false →
     omap (accepted kb) events = omap (fun ev => carried ev.2) events).
Proof.
  split.
  - revert pg. induction events as [|ev events IH]; intros pg; [reflexivity|].
    rewrite receiveAll_cons, IH, onmessage_accepted.
    change (omap (accepted kb) (ev :: events))
      with (match accepted kb ev with
            | Some progress => progress :: omap (accepted kb) events
            | None => omap (accepted kb) events
            end).
    destruct (accepted kb ev) as [progress|]; [|reflexivity].
    rewrite last_cons. destruct (last (omap (accepted kb) events)); reflexivity.
  - intros Hready. induction events as [|ev events IH]; [reflexivity|].
    change (omap (accepted kb) (ev :: events))
      with (match accepted kb ev with
            | Some progress => progress :: omap (accepted kb) events
            | None => omap (accepted kb) events
            end).
    change (omap (fun ev0 : Z * MessageEvent => carried ev0.2) (ev :: events))
      with (match carried ev.2 with
            | Some progress => progress :: omap (fun ev0 : Z * MessageEvent => carried ev0.2) events
            | None => omap (fun ev0 : Z * MessageEvent => carried ev0.2) events
            end).
    rewrite IH. unfold accepted. rewrite Hready.
    destruct (carried ev.2); reflexivity.
Qed.

End WithDate.
End ProgressMoreFacts.

(** ** More properties of the socket registry *)

Module RegistryMoreFacts.
Import KnowledgePage Notions RegistryFacts.

(** *** What gets closed *)

Lemma elem_of_closes (m : gmap string WebSocket) (e : ChannelEvent) :
  e ∈ closes m ↔ ∃ n ws, e = Closed n ∧ m !! n = Some ws ∧ live ws = true.
Proof.
  unfold closes. rewrite list_elem_of_fmap. split.
  - intros ([n ws] & -> & Hin). apply list_elem_of_filter in Hin as [Hlive Hin].
    apply elem_of_map_to_list in Hin. simpl in Hlive. apply Is_true_true in Hlive.
    exists n, ws. auto.
  - intros (n & ws & -> & Hn & Hlive). exists (n, ws). split; [reflexivity|].
    apply list_elem_of_filter. split.
    + simpl. apply Is_true_true. exact Hlive.
    + apply elem_of_map_to_list. exact Hn.
Qed.

Lemma NoDup_closes (m : gmap string WebSocket) : NoDup (closes m).
Proof.
  unfold closes. apply NoDup_fmap_2_strong.
  - intros [n ws] [n' ws'] Hin Hin' Heq. simpl in Heq. injection Heq as <-.
    apply list_elem_of_filter in Hin as [_ Hin].
    apply list_elem_of_filter in Hin' as [_ Hin'].
    apply elem_of_map_to_list in Hin. apply elem_of_map_to_list in Hin'.
    congruence.
  - apply NoDup_filter. apply NoDup_map_to_list.
Qed.

(** X18.  The clean-up on unmount closes exactly the sockets that are open or
    connecting, each once, and empties the registry; it leaves the progress
    map and the store alone; a second clean-up closes nothing. *)
Theorem unmount_closes_live_sockets (pg : Page) :
  wsConnectionsRef (unmount pg).1 = ∅
  ∧ (∀ e, e ∈ (unmount pg).2
          ↔ ∃ n ws, e = Closed n ∧ wsConnectionsRef pg !! n = Some ws ∧ live ws = true)
  ∧ NoDup (unmount pg).2
  ∧ progressMap (unmount pg).1 = progressMap pg
  ∧ localStorage (unmount pg).1 = localStorage pg
  ∧ unmount (unmount pg).1 = ((unmount pg).1, []).
Proof.
  split; [reflexivity|]. split; [intros e; apply elem_of_closes|].
  split; [apply NoDup_closes|]. split; [reflexivity|]. split; [reflexivity|].
  unfold unmount. cbn [fst wsConnectionsRef]. rewrite closes_empty. reflexivity.
Qed.

(** *** What gets opened *)

Lemma connect_all_events (kbs : list KnowledgeBase) (m : gmap string WebSocket)
    (events : list ChannelEvent) :
  ∃ new, (fold_left connect kbs (m, events)).2 = (events ++ new)%list
         ∧ NoDup new
         ∧ ∀ e, e ∈ new ↔ ∃ n, e = Opened n ∧ n ∈ (name <$> kbs) ∧ ¬ occupied m n.
Proof.
  revert m events. induction kbs as [|kb kbs IH]; intros m events.
  - exists []. simpl. rewrite app_nil_r. split; [reflexivity|]. split; [constructor|].
    intros e. split; [intros He; inversion He|].
    intros (n & _ & Hn & _). inversion Hn.
  - simpl. destruct (occupied_dec m (name kb)) as [Ha|Hd].
    + rewrite (connect_occupied (m, events) kb Ha).
      destruct (IH m events) as (new & Heq & Hnd & Hchar).
      exists new. split; [exact Heq|]. split; [exact Hnd|].
      intros e. rewrite Hchar. split.
      * intros (n & -> & Hn & Hfree). exists n. split; [reflexivity|].
        split; [apply elem_of_cons; right; exact Hn | exact Hfree].
      * intros (n & -> & Hn & Hfree). exists n. split; [reflexivity|].
        split; [|exact Hfree]. apply elem_of_cons in Hn as [->|Hn]; [|exact Hn].
        exfalso. apply Hfree. exact Ha.
    + rewrite (connect_free (m, events) kb Hd). cbn [fst snd].
      destruct (IH (<[name kb := {| ws_kb := kb; readyState := CONNECTING |}]> m)
                  (events ++ [Opened (name kb)])%list) as (new & Heq & Hnd & Hchar).
      exists (Opened (name kb) :: new). split.
      { rewrite Heq, <- app_assoc. reflexivity. }
      split.
      { constructor; [|exact Hnd]. intros Hin. apply Hchar in Hin as (n & Heq' & _ & Hfree).
        injection Heq' as <-. apply Hfree. apply occupied_insert_connecting. left. reflexivity. }
      intros e. rewrite elem_of_cons, Hchar. split.
      * intros [-> | (n & -> & Hn & Hfree)].
        -- exists (name kb). split; [reflexivity|].
           split; [apply elem_of_cons; left; reflexivity | exact Hd].
        -- exists n. split; [reflexivity|].
           split; [apply elem_of_cons; right; exact Hn|].
           intros Ha. apply Hfree. apply occupied_insert_connecting. right. exact Ha.
      * intros (n & -> & Hn & Hfree).
        destruct (decide (n = name kb)) as [->|Hne]; [left; reflexivity|].
        right. exists n. split; [reflexivity|]. split.
        -- apply elem_of_cons in Hn as [Heq'|Hn]; [congruence | exact Hn].
        -- intros Ha. apply occupied_insert_connecting in Ha as [Heq'|Ha]; [congruence|].
           apply Hfree. exact Ha.
Qed.

Lemma lookup_kept (names : list string) (m : gmap string WebSocket) (n : string) :
  n ∈ names →
  filter (fun entry : string * WebSocket => entry.1 ∈ names) m !! n = m !! n.
Proof.
  intros Hn. destruct (m !! n) as [ws|] eqn:Hws.
  - apply map_lookup_filter_Some. split; [exact Hws | exact Hn].
  - apply map_lookup_filter_None. left. exact Hws.
Qed.

Lemma occupied_kept (names : list string) (m : gmap string WebSocket) (n : string) :
  n ∈ names →
  (occupied (filter (fun entry : string * WebSocket => entry.1 ∈ names) m) n
   ↔ occupied m n).
Proof.
  intros Hn. unfold occupied, alive. rewrite (lookup_kept names m n Hn). reflexivity.
Qed.

(** The test of the loop fails exactly for a name that has no socket, or a
    closed one, and that is not served by the prototype. *)
Lemma occupied_spelled (m : gmap string WebSocket) (n : string) :
  ¬ occupied m n
  ↔ ¬ alive m n ∧ (m !! n = None → Js.inherited n = false).
Proof.
  unfold occupied. split.
  - intros Hfree. split; [intros Ha; apply Hfree; left; exact Ha|].
    intros Hnone. destruct (Js.inherited n) eqn:Hin; [|reflexivity].
    exfalso. apply Hfree. right. split; [exact Hnone | reflexivity].
  - intros [Hdead Hown] [Ha | [Hnone Hin]]; [exact (Hdead Ha)|].
    rewrite (Hown Hnone) in Hin. discriminate Hin.
Qed.

(** The events of a run that does not return early: the sockets closed for
    the names that are no longer tracked, then the sockets opened. *)
Lemma sync_run_events (kbs : list KnowledgeBase) (pg : Page) :
  unchangedNames kbs pg = false →
  ∃ new,
    (syncConnections false kbs pg).2
    = (closes (filter (fun entry : string * WebSocket => ¬ entry.1 ∈ name <$> kbs)
                 (wsConnectionsRef pg)) ++ new)%list
    ∧ NoDup new
    ∧ ∀ e, e ∈ new
           ↔ ∃ n, e = Opened n ∧ n ∈ (name <$> kbs) ∧ ¬ occupied (wsConnectionsRef pg) n.
Proof.
  intros Hskip. unfold syncConnections. unfold unchangedNames in Hskip. rewrite Hskip.
  destruct kbs as [|kb kbs].
  - rewrite bool_decide_eq_true_2 by reflexivity. exists [].
    split; [|split; [constructor|]].
    + rewrite app_nil_r.
      assert (filter (fun entry : string * WebSocket =>
                        ¬ entry.1 ∈ name <$> ([] : list KnowledgeBase))
                (wsConnectionsRef pg) = wsConnectionsRef pg) as ->.
      { apply map_filter_id. intros n ws _ Hin. inversion Hin. }
      case_bool_decide as Hsize; cbn [snd]; [reflexivity|].
      assert (wsConnectionsRef pg = ∅) as -> by (apply map_size_empty_iff; lia).
      rewrite closes_empty. reflexivity.
    + intros e. split; [intros Hin; inversion Hin|].
      intros (n & _ & Hn & _). inversion Hn.
  - rewrite bool_decide_eq_false_2 by discriminate.
    remember (kb :: kbs) as tracked eqn:Htracked. clear Htracked Hskip kb kbs.
    cbn [snd].
    destruct (connect_all_events tracked
                (filter (fun entry : string * WebSocket => entry.1 ∈ name <$> tracked)
                   (wsConnectionsRef pg)) []) as (new & Heq & Hnd & Hchar).
    exists new. rewrite Heq. cbn [app]. split; [reflexivity|]. split; [exact Hnd|].
    intros e. rewrite Hchar. split.
    + intros (n & -> & Hn & Hfree). exists n. split; [reflexivity|]. split; [exact Hn|].
      intros Ho. apply Hfree. apply occupied_kept; assumption.
    + intros (n & -> & Hn & Hfree). exists n. split; [reflexivity|]. split; [exact Hn|].
      intros Ho. apply Hfree. apply (occupied_kept (name <$> tracked)); assumption.
Qed.

(** X19.  The events of a run that does not return early.  A socket is opened for
    exactly the tracked names that have no socket, or a closed one, except
    that none is opened for a name that [Object.prototype] defines
    ([toString], [constructor], ...) when nothing is registered under it;
    a socket is closed exactly when it is open or connecting and its name is
    no longer tracked; and no event occurs twice, so a listing that repeats
    a name gets one socket for it. *)
Theorem sync_opens_missing_closes_untracked (kbs : list KnowledgeBase) (pg : Page) :
  unchangedNames kbs pg = false →
  (∀ n, Opened n ∈ (syncConnections false kbs pg).2
        ↔ n ∈ (name <$> kbs)
          ∧ ¬ alive (wsConnectionsRef pg) n
          ∧ (wsConnectionsRef pg !! n = None → Js.inherited n = false))
  ∧ (∀ n, Closed n ∈ (syncConnections false kbs pg).2
          ↔ (n ∉ (name <$> kbs))
            ∧ ∃ ws, wsConnectionsRef pg !! n = Some ws ∧ live ws = true)
  ∧ NoDup (syncConnections false kbs pg).2.
Proof.
  intros Hskip. destruct (sync_run_events kbs pg Hskip) as (new & -> & Hnd & Hchar).
  split; [|split].
  - intros n. rewrite elem_of_app, Hchar. split.
    + intros [Hin | (n' & Heq' & Hn & Hfree)].
      * apply elem_of_closes in Hin as (n' & ws & Heq' & _). discriminate Heq'.
      * injection Heq' as <-. split; [exact Hn|]. apply occupied_spelled. exact Hfree.
    + intros (Hn & Hfree). apply occupied_spelled in Hfree.
      right. exists n. split; [reflexivity|]. split; assumption.
  - intros n. rewrite elem_of_app, elem_of_closes. split.
    + intros [(n' & ws & Heq' & Hws & Hlive) | Hin].
      * injection Heq' as <-. apply map_lookup_filter_Some in Hws as [Hws Hout].
        split; [exact Hout | eauto].
      * apply Hchar in Hin as (n' & Heq' & _). discriminate Heq'.
    + intros (Hout & ws & Hws & Hlive). left. exists n, ws.
      split; [reflexivity|]. split; [|exact Hlive].
      apply map_lookup_filter_Some. split; [exact Hws | exact Hout].
  - apply NoDup_app. split; [apply NoDup_closes|]. split; [|exact Hnd].
    intros e Hin Hin'. apply elem_of_closes in Hin as (n & ws & -> & _).
    apply Hchar in Hin' as (n' & Heq' & _). discriminate Heq'.
Qed.

(** A name under which nothing is registered, and which [Object.prototype]
    defines, gets no socket from the loop. *)
Lemma connect_all_inherited (kbs : list KnowledgeBase)
    (acc : gmap string WebSocket * list ChannelEvent) (n : string) :
  acc.1 !! n = None → Js.inherited n = true →
  (fold_left connect kbs acc).1 !! n = None.
Proof.
  revert acc. induction kbs as [|kb kbs IH]; intros acc Hnone Hin; [exact Hnone|].
  simpl. apply IH; [|exact Hin].
  destruct (occupied_dec acc.1 (name kb)) as [Ho|Hfree].
  - rewrite connect_occupied by exact Ho. exact Hnone.
  - rewrite connect_free by exact Hfree. cbn [fst].
    rewrite lookup_insert_ne; [exact Hnone|].
    intros <-. apply Hfree. right. split; assumption.
Qed.

(** X20.  After a run that does not return early, the registry holds a socket that
    is not closed for every tracked name that [Object.prototype] does not
    define, and no socket for a name that is not tracked; a tracked name
    that [Object.prototype] defines and that had no socket still has none;
    and the remembered names are those of the listing. *)
Theorem sync_reconciles_registry (kbs : list KnowledgeBase) (pg : Page) :
  unchangedNames kbs pg = false →
  (∀ n, n ∈ (name <$> kbs) → Js.inherited n = false →
        alive (wsConnectionsRef (syncConnections false kbs pg).1) n)
  ∧ (∀ n, is_Some (wsConnectionsRef (syncConnections false kbs pg).1 !! n) →
          n ∈ (name <$> kbs))
  ∧ (∀ n, wsConnectionsRef pg !! n = None → Js.inherited n = true →
          wsConnectionsRef (syncConnections false kbs pg).1 !! n = None)
  ∧ (kbs ≠ [] → kbsNamesRef (syncConnections false kbs pg).1 = name <$> kbs)
  ∧ (kbs = [] → kbsNamesRef (syncConnections false kbs pg).1 = []
                ∧ wsConnectionsRef (syncConnections false kbs pg).1 = ∅).
Proof.
  intros Hskip. destruct (sync_reconciles kbs pg Hskip) as [Hall Honly].
  split; [|split; [exact Honly|]].
  { intros n Hn Hin. destruct (Hall n Hn) as [Ha | [_ Hyes]]; [exact Ha|].
    rewrite Hin in Hyes. discriminate Hyes. }
  unfold syncConnections. unfold unchangedNames in Hskip. rewrite Hskip.
  destruct kbs as [|kb kbs].
  - rewrite bool_decide_eq_true_2 by reflexivity.
    split; [|split; [intros Hne; exfalso; apply Hne; reflexivity|]].
    + intros n Hnone Hin. case_bool_decide as Hsize; cbn [fst wsConnectionsRef];
        [apply lookup_empty | exact Hnone].
    + intros _. case_bool_decide as Hsize; cbn [fst kbsNamesRef wsConnectionsRef];
        [split; reflexivity|].
      split; [reflexivity|]. apply map_size_empty_iff. lia.
  - rewrite bool_decide_eq_false_2 by discriminate.
    split; [|split; [intros _; reflexivity | intros Heq; discriminate Heq]].
    intros n Hnone Hin. cbn [fst wsConnectionsRef].
    apply connect_all_inherited; [|exact Hin].
    cbn [fst]. apply map_lookup_filter_None. left. exact Hnone.
Qed.

(** *** What is kept *)

Lemma connect_keeps (acc : gmap string WebSocket * list ChannelEvent)
    (kb : KnowledgeBase) (n : string) (ws : WebSocket) :
  acc.1 !! n = Some ws → readyState ws ≠ CLOSED → (connect acc kb).1 !! n = Some ws.
Proof.
  intros Hws Hopen. destruct (occupied_dec acc.1 (name kb)) as [Ha|Hd].
  - rewrite connect_occupied by exact Ha. exact Hws.
  - rewrite connect_free by exact Hd. cbn [fst].
    rewrite lookup_insert_ne; [exact Hws|].
    intros <-. apply Hd. left. exists ws. auto.
Qed.

Lemma connect_all_keeps (kbs : list KnowledgeBase)
    (acc : gmap string WebSocket * list ChannelEvent) (n : string) (ws : WebSocket) :
  acc.1 !! n = Some ws → readyState ws ≠ CLOSED →
  (fold_left connect kbs acc).1 !! n = Some ws.
Proof.
  revert acc. induction kbs as [|kb kbs IH]; intros acc Hws Hopen; [exact Hws|].
  simpl. apply IH; [|exact Hopen]. apply connect_keeps; assumption.
Qed.

(** X21.  A socket that is registered, not closed, and whose name is still tracked
    is kept as it is by every run of the effect, with the listing entry that
    its handlers close over: a new listing never reaches the handlers of a
    socket that stays. *)
Theorem sync_keeps_surviving_sockets (loading : bool) (kbs : list KnowledgeBase)
    (pg : Page) (n : string) (ws : WebSocket) :
  wsConnectionsRef pg !! n = Some ws →
  readyState ws ≠ CLOSED →
  n ∈ (name <$> kbs) →
  wsConnectionsRef (syncConnections loading kbs pg).1 !! n = Some ws.
Proof.
  intros Hws Hopen Hn. unfold syncConnections.
  destruct loading; [exact Hws|].
  destruct (_ && _ && _); [exact Hws|].
  destruct kbs as [|kb kbs]; [inversion Hn|].
  rewrite bool_decide_eq_false_2 by discriminate. cbn [fst wsConnectionsRef].
  apply connect_all_keeps; [|exact Hopen].
  cbn [fst]. apply map_lookup_filter_Some. split; [exact Hws | exact Hn].
Qed.

(** X22.  On an empty registry (the first run, or a run after the clean-up on
    unmount) the effect does not return early, closes nothing, and opens one
    socket for each tracked name that [Object.prototype] does not define,
    and none for another. *)
Theorem sync_on_empty_registry (kbs : list KnowledgeBase) (pg : Page) :
  wsConnectionsRef pg = ∅ →
  (∀ e, e ∈ (syncConnections false kbs pg).2
        ↔ ∃ n, e = Opened n ∧ n ∈ (name <$> kbs) ∧ Js.inherited n = false)
  ∧ NoDup (syncConnections false kbs pg).2.
Proof.
  intros Hempty.
  assert (unchangedNames kbs pg = false) as Hskip.
  { unfold unchangedNames. rewrite Hempty, map_size_empty.
    rewrite bool_decide_eq_false_2 by lia. apply andb_false_r. }
  destruct (sync_run_events kbs pg Hskip) as (new & -> & Hnd & Hchar).
  rewrite Hempty, map_filter_empty, closes_empty. cbn [app].
  split; [|exact Hnd].
  intros e. rewrite Hchar. split.
  - intros (n & -> & Hn & Hfree). exists n. split; [reflexivity|]. split; [exact Hn|].
    apply occupied_spelled in Hfree as [_ Hown]. apply Hown.
    rewrite Hempty. apply lookup_empty.
  - intros (n & -> & Hn & Hin). exists n. split; [reflexivity|]. split; [exact Hn|].
    apply occupied_spelled. split; [|intros _; exact Hin].
    intros (ws & Hws & _). rewrite Hempty, lookup_empty in Hws. discriminate Hws.
Qed.

(** *** The listing of [handleCreate] *)

(** X23.  The update of the listing by [handleCreate] adds the new knowledge base
    in front unless one of that name is listed, in which case the listing,
    with the statistics it has for that name, stays as it is.  So the name is
    listed afterwards, names that were pairwise different stay so, and a
    second update with the same knowledge base changes nothing. *)
Theorem addIfMissing_keeps_names_distinct (kb : KnowledgeBase)
    (prev : list KnowledgeBase) :
  name kb ∈ (name <$> addIfMissing kb prev)
  ∧ (name kb ∈ (name <$> prev) → addIfMissing kb prev = prev)
  ∧ (name kb ∉ (name <$> prev) → addIfMissing kb prev = kb :: prev)
  ∧ (NoDup (name <$> prev) → NoDup (name <$> addIfMissing kb prev))
  ∧ addIfMissing kb (addIfMissing kb prev) = addIfMissing kb prev.
Proof.
  assert (existsb (fun other => String.eqb (name other) (name kb)) prev = true
          ↔ name kb ∈ (name <$> prev)) as Hex.
  { rewrite existsb_exists, list_elem_of_fmap. split.
    - intros (other & Hin & Heq). apply String.eqb_eq in Heq.
      exists other. split; [symmetry; exact Heq | apply list_elem_of_In; exact Hin].
    - intros (other & Heq & Hin). exists other.
      split; [apply list_elem_of_In; exact Hin | apply String.eqb_eq; symmetry; exact Heq]. }
  assert (name kb ∈ (name <$> prev) → addIfMissing kb prev = prev) as Hin.
  { intros Hn. unfold addIfMissing. apply Hex in Hn. rewrite Hn. reflexivity. }
  assert (name kb ∉ (name <$> prev) → addIfMissing kb prev = kb :: prev) as Hout.
  { intros Hn. unfold addIfMissing.
    destruct (existsb _ prev) eqn:Hb; [|reflexivity].
    exfalso. apply Hn. apply Hex. reflexivity. }
  assert (name kb ∈ (name <$> addIfMissing kb prev)) as Hlisted.
  { destruct (decide (name kb ∈ (name <$> prev))) as [Hn|Hn].
    - rewrite Hin by exact Hn. exact Hn.
    - rewrite Hout by exact Hn. simpl. apply elem_of_cons. left. reflexivity. }
  split; [exact Hlisted|]. split; [exact Hin|]. split; [exact Hout|]. split.
  - intros Hnd. destruct (decide (name kb ∈ (name <$> prev))) as [Hn|Hn].
    + rewrite Hin by exact Hn. exact Hnd.
    + rewrite Hout by exact Hn. simpl. constructor; assumption.
  - unfold addIfMissing at 1.
    assert (existsb (fun other => String.eqb (name other) (name kb)) (addIfMissing kb prev)
            = true) as ->; [|reflexivity].
    rewrite existsb_exists. apply list_elem_of_fmap in Hlisted as (other & Heq & Hmem).
    exists other. split; [apply list_elem_of_In; exact Hmem|].
    apply String.eqb_eq. symmetry. exact Heq.
Qed.

(** *** Names with a comma *)

(** X24.  The effect compares the tracked names through their comma-joined list.
    When the one knowledge base tracked so far is named like the joined names
    of two knowledge bases, a listing of those two, in place of it, looks
    unchanged: the run returns early, opens no socket for them and keeps the
    socket of the old one. *)
Theorem comma_joined_names_look_unchanged (kbA kbB : KnowledgeBase) (pg : Page) :
  kbsNamesRef pg = [Js.join "," (Js.sort [name kbA; name kbB])] →
  wsConnectionsRef pg ≠ ∅ →
  syncConnections false [kbA; kbB] pg = (pg, []).
Proof.
  intros Hprev Hconns. apply sync_unchangedNames. unfold unchangedNames.
  rewrite Hprev.
  change (name <$> [kbA; kbB]) with [name kbA; name kbB].
  assert (∀ x : string, Js.join "," (Js.sort [x]) = x) as Hone.
  { intros x. unfold Js.join. cbn. reflexivity. }
  rewrite Hone, String.eqb_refl.
  assert (Js.join "," (Js.sort [name kbA; name kbB]) ≠ "") as Hne.
  { assert (Js.sort [name kbA; name kbB] ≡ₚ [name kbA; name kbB]) as Hperm
      by (unfold Js.sort; apply merge_sort_Permutation).
    apply Permutation_length in Hperm.
    destruct (Js.sort [name kbA; name kbB]) as [|c [|d [|e l]]];
      try discriminate Hperm.
    unfold Js.join. simpl. destruct c; discriminate. }
  apply String.eqb_neq in Hne. rewrite Hne. simpl.
  apply bool_decide_eq_true_2. apply map_size_non_empty_iff in Hconns. lia.
Qed.

End RegistryMoreFacts.

(** ** Properties of the sidebar *)

Module HistoryFacts.
Import SessionHistory.

(** X25.  The label of a session dated [d] milliseconds before now: "Just now"
    under a minute, and for a date in the future; then whole minutes up to
    59, whole hours up to 23, whole days up to 6; the date in the words of
    the locale from seven days on, and for a date that does not parse. *)
Theorem formatTimeAgo_thresholds `{Js.DateImpl} (toLocaleDateString : Js.Num -> string)
    (now : Z) (dateString : string) :
  (∀ t, Js.Date_parse dateString = Js.Fin t →
     (now - t < 60000 →
      formatTimeAgo toLocaleDateString now dateString = "Just now")
     ∧ (60000 ≤ now - t < 3600000 →
        formatTimeAgo toLocaleDateString now dateString
        = pretty ((now - t) / 60000) ++ "m ago"
        ∧ 1 ≤ (now - t) / 60000 ≤ 59)
     ∧ (3600000 ≤ now - t < 86400000 →
        formatTimeAgo toLocaleDateString now dateString
        = pretty ((now - t) / 3600000) ++ "h ago"
        ∧ 1 ≤ (now - t) / 3600000 ≤ 23)
     ∧ (86400000 ≤ now - t < 604800000 →
        formatTimeAgo toLocaleDateString now dateString
        = pretty ((now - t) / 86400000) ++ "d ago"
        ∧ 1 ≤ (now - t) / 86400000 ≤ 6)
     ∧ (604800000 ≤ now - t →
        formatTimeAgo toLocaleDateString now dateString
        = toLocaleDateString (Js.Fin t)))
  ∧ (Js.Date_parse dateString = Js.NaN →
     formatTimeAgo toLocaleDateString now dateString = toLocaleDateString Js.NaN).
Proof.
  split.
  - intros t Ht. unfold formatTimeAgo. cbn [Js.Date_getTime]. rewrite Ht.
    cbn [Js.sub Js.floorDiv Js.lt Js.toString].
    set (d := now - t).
    assert (d / 60000 / 60 = d / 3600000) as Hh
      by (rewrite Z.div_div by lia; reflexivity).
    assert (d / 60000 / 60 / 24 = d / 86400000) as Hd
      by (rewrite Hh, Z.div_div by lia; reflexivity).
    rewrite Hd, Hh.
    assert (∀ k q, 0 < k → (d / k <? q) = true ↔ d < k * q) as Hlt.
    { intros k q Hk. rewrite Z.ltb_lt.
      pose proof (Z.div_mod d k ltac:(lia)) as Hdm.
      pose proof (Z.mod_pos_bound d k Hk) as Hr.
      split; intros Hlt; [nia|].
      apply Z.div_lt_upper_bound; assumption. }
    assert (∀ k q, 0 < k → (d / k <? q) = false ↔ k * q ≤ d) as Hge.
    { intros k q Hk. split; intros Hc.
      - destruct (Z.lt_ge_cases d (k * q)) as [Hlt'|Hge']; [|exact Hge'].
        apply (Hlt k q Hk) in Hlt'. congruence.
      - destruct (d / k <? q) eqn:Hb; [|reflexivity].
        apply (Hlt k q Hk) in Hb. lia. }
    repeat split.
    + intros Hd1. assert ((d / 60000 <? 1) = true) as -> by (apply Hlt; lia). reflexivity.
    + assert ((d / 60000 <? 1) = false) as -> by (apply Hge; lia).
      assert ((d / 60000 <? 60) = true) as -> by (apply Hlt; lia). reflexivity.
    + apply Z.div_le_lower_bound; lia.
    + assert (d / 60000 < 60) by (apply Z.div_lt_upper_bound; lia). lia.
    + assert ((d / 60000 <? 1) = false) as -> by (apply Hge; lia).
      assert ((d / 60000 <? 60) = false) as -> by (apply Hge; lia).
      assert ((d / 3600000 <? 24) = true) as -> by (apply Hlt; lia). reflexivity.
    + apply Z.div_le_lower_bound; lia.
    + assert (d / 3600000 < 24) by (apply Z.div_lt_upper_bound; lia). lia.
    + assert ((d / 60000 <? 1) = false) as -> by (apply Hge; lia).
      assert ((d / 60000 <? 60) = false) as -> by (apply Hge; lia).
      assert ((d / 3600000 <? 24) = false) as -> by (apply Hge; lia).
      assert ((d / 86400000 <? 7) = true) as -> by (apply Hlt; lia). reflexivity.
    + apply Z.div_le_lower_bound; lia.
    + assert (d / 86400000 < 7) by (apply Z.div_lt_upper_bound; lia). lia.
    + intros Hd7.
      assert ((d / 60000 <? 1) = false) as -> by (apply Hge; lia).
      assert ((d / 60000 <? 60) = false) as -> by (apply Hge; lia).
      assert ((d / 3600000 <? 24) = false) as -> by (apply Hge; lia).
      assert ((d / 86400000 <? 7) = false) as -> by (apply Hge; lia). reflexivity.
  - intros Hnan. unfold formatTimeAgo. cbn [Js.Date_getTime]. rewrite Hnan. reflexivity.
Qed.

(** X26.  Deleting from the sidebar.  While a deletion is under way a second one
    is ignored, and sends nothing.  When the [DELETE] succeeds, no session
    with the deleted id is listed any more, every other session stays in
    place, and [onNewSession] is called exactly when the deleted session is
    the current one; when it fails, the list stays as it is.  In every case
    the deletion is no longer under way afterwards. *)
Theorem handleDelete_removes_only_deleted (currentSessionId : option string)
    (sessionId : string) (outcome : option bool) (st : History) :
  (∀ d, deletingId st = Some d → d ≠ "" → handleDeleteStart sessionId st = (st, false))
  ∧ (deletingId st = None →
     handleDeleteStart sessionId st = (setDeletingId (Some sessionId) st, true))
  ∧ deletingId (handleDeleteSettle currentSessionId sessionId outcome st) = None
  ∧ (outcome = Some true →
     sessions (handleDeleteSettle currentSessionId sessionId outcome st)
     = filter (fun s => id s ≠ sessionId) (sessions st)
     ∧ (∀ s, s ∈ sessions (handleDeleteSettle currentSessionId sessionId outcome st)
             ↔ s ∈ sessions st ∧ id s ≠ sessionId)
     ∧ newSessions (handleDeleteSettle currentSessionId sessionId outcome st)
       = if bool_decide (currentSessionId = Some sessionId)
         then S (newSessions st) else newSessions st)
  ∧ (outcome ≠ Some true →
     sessions (handleDeleteSettle currentSessionId sessionId outcome st) = sessions st
     ∧ newSessions (handleDeleteSettle currentSessionId sessionId outcome st)
       = newSessions st).
Proof.
  split; [|split; [|split; [|split]]].
  - intros d Hd Hne. unfold handleDeleteStart. rewrite Hd.
    assert (Js.truthy_string d = true) as ->; [|reflexivity].
    unfold Js.truthy_string. apply String.eqb_neq in Hne. rewrite Hne. reflexivity.
  - intros Hd. unfold handleDeleteStart. rewrite Hd. reflexivity.
  - reflexivity.
  - intros ->. split; [reflexivity|]. split; [|reflexivity].
    intros s. simpl. rewrite list_elem_of_filter. tauto.
  - intros Hne. destruct outcome as [[]|]; try (split; reflexivity).
    exfalso. apply Hne. reflexivity.
Qed.

End HistoryFacts.

(** ** Worked examples on the knowledge page

    The date parser is [isoDate]; times are those of [Samples]. *)

Module ProgressExamples.
Import KnowledgePage Notions Samples ProgressFacts.

#[local] Existing Instance isoDate.

(** C1 fails as stated: the completed record of [math101] is replaced by the
    in-progress record that arrives after it. *)
Lemma late_progress_replaces_completed :
  storedFinished "math101" afterCompleted
  ∧ finished lateProgress = false
  ∧ progressMap (onmessage math101 (newYear + minutes 2) (progressMessage lateProgress)
                   afterCompleted) !! "math101" = Some lateProgress.
Proof.
  split; [|split].
  - exists (info "completed" 100 None). split; vm_compute; reflexivity.
  - reflexivity.
  - vm_compute. reflexivity.
Qed.

Lemma finished_survives_stale_progress_witness :
  storedFinished "math101" (receiveAll (kb "math101" true) staleBurst donePage).
Proof.
  apply (finished_survives_stale_progress (kb "math101" true) staleBurst donePage).
  - reflexivity.
  - exists (info "completed" 100 None). split; vm_compute; reflexivity.
  - unfold staleBurst. repeat apply List.Forall_cons; try apply List.Forall_nil;
      simpl; intros progress Hcar Hf; injection Hcar as <-; try discriminate Hf.
    + left. reflexivity.
    + right. exists newYearIso, newYear. repeat split; vm_compute; reflexivity.
Defined.

(** C5 fails as stated: a record stamped at new year and received two minutes
    later is stored with the time of the payload, not with the time of its
    receipt. *)
Lemma payload_time_kept_on_receipt :
  progressMap (onmessage (kb "math101" true) (newYear + minutes 2)
                 (progressMessage (info "processing" 40 (Some newYearIso)))
                 (initialPage emptyStore)) !! "math101"
  = Some (info "processing" 40 (Some newYearIso))
  ∧ ¬ stampedAt (newYear + minutes 2) (info "processing" 40 (Some newYearIso)).
Proof.
  split.
  - vm_compute. reflexivity.
  - intros (ts & Hts & Htime). injection Hts as <-.
    vm_compute in Htime. discriminate Htime.
Qed.

Lemma accepted_progress_stored_as_received_witness :
  progressMap (onmessage (kb "math101" true) (newYear + minutes 2)
                 (progressMessage (info "processing" 40 (Some newYearIso)))
                 donePage) !! "math101"
  = Some (info "processing" 40 (Some newYearIso)).
Proof.
  apply (accepted_progress_stored_as_received (kb "math101" true) (newYear + minutes 2)
           (info "processing" 40 (Some newYearIso)) donePage).
  vm_compute. reflexivity.
Defined.

(** C6 fails as stated: nothing is stored for [math101], it is initialised,
    and the first in-progress notification, which carries no time, is
    dropped. *)
Lemma first_record_without_time_rejected :
  progressMap (initialPage emptyStore) !! "math101" = None
  ∧ onmessage (kb "math101" true) newYear (progressMessage (info "initializing" 0 None))
      (initialPage emptyStore) = initialPage emptyStore.
Proof. split; reflexivity. Qed.

Lemma first_record_accepted_unless_stale_witness :
  progressMap (onmessage (kb "math101" false) newYear
                 (progressMessage (info "initializing" 0 None))
                 (initialPage emptyStore)) !! "math101"
  = Some (info "initializing" 0 None).
Proof.
  apply (first_record_accepted_unless_stale (kb "math101" false) newYear
           (info "initializing" 0 None) (initialPage emptyStore)).
  - reflexivity.
  - left. reflexivity.
Defined.

(** Restoring [savedMap] thirty-one minutes after new year: the stuck record
    goes, the completed one stays, the untimed in-progress one goes, and the
    store holds the cleaned map. *)
Lemma restore_cleans_saved_map_witness :
  progressMap (restoreProgress (newYear + minutes 31) savedPage) !! "stuck" = None
  ∧ progressMap (restoreProgress (newYear + minutes 31) savedPage) !! "done"
    = Some (info "completed" 100 (Some newYearIso))
  ∧ progressMap (restoreProgress (newYear + minutes 31) savedPage) !! "untimed" = None
  ∧ LocalStorage.getItem PROGRESS_KEY
      (localStorage (restoreProgress (newYear + minutes 31) savedPage))
    = Some (progressMap (restoreProgress (newYear + minutes 31) savedPage)).
Proof.
  destruct (restore_cleans_saved_map (newYear + minutes 31) savedPage savedMap)
    as (Hold & Hfin & Huntimed & _ & _ & Hstore).
  - vm_compute. reflexivity.
  - split; [|split; [|split]].
    + apply (Hold "stuck" (info "processing" 40 (Some newYearIso))).
      * vm_compute. reflexivity.
      * reflexivity.
      * exists newYearIso, newYear. repeat split; vm_compute; reflexivity.
    + apply (Hfin "done" (info "completed" 100 (Some newYearIso))).
      * discriminate.
      * vm_compute. reflexivity.
      * reflexivity.
    + vm_compute. reflexivity.
    + apply Hstore. reflexivity.
Defined.

(** C2 fails on the code.  The socket of [algebra] was created for a listing
    that did not report it as initialised.  A later listing reports it as
    initialised; its names are those of the run before, so the effect returns
    at once ("update statistics in existing connections context, but don't
    reconnect") and the socket keeps the handler that closes over the first
    listing.  An in-progress record forty minutes old is then not ignored: it
    is stored, and written to the store. *)
Lemma stale_record_accepted_after_ready_listing :
  let late := info "processing" 10 (Some newYearIso) in
  let pg' := deliver "algebra" (newYear + minutes 40) (progressMessage late) connected in
  kb "algebra" true ∈ reordered
  ∧ syncConnections false reordered connected = (connected, [])
  ∧ finished late = false
  ∧ olderThan fiveMinutes (newYear + minutes 40) late
  ∧ progressMap connected !! "algebra" = None
  ∧ progressMap pg' !! "algebra" = Some late
  ∧ LocalStorage.getItem PROGRESS_KEY (localStorage pg') = Some (progressMap pg').
Proof.
  cbv zeta. split; [|split; [|split; [|split; [|split; [|split]]]]].
  - unfold reordered. apply elem_of_cons. right. apply elem_of_cons. left. reflexivity.
  - vm_compute. reflexivity.
  - reflexivity.
  - exists newYearIso, newYear. split; [reflexivity|]. split; vm_compute; reflexivity.
  - reflexivity.
  - vm_compute. reflexivity.
  - vm_compute. reflexivity.
Qed.


End ProgressExamples.

(** ** Worked examples on the registry and the session hook *)

Module RegistryExamples.
Import KnowledgePage Notions Samples RegistryFacts.

#[local] Existing Instance isoDate.

(** The listing [reordered] right after [tracked]: the same names in another
    order, with new statistics. *)
Lemma sync_twice_opens_and_closes_nothing_witness :
  (syncConnections false reordered connected).2 = []
  ∧ wsConnectionsRef (syncConnections false reordered connected).1
    = wsConnectionsRef connected.
Proof.
  apply (sync_twice_opens_and_closes_nothing false tracked reordered
           (initialPage emptyStore)).
  apply perm_swap.
Defined.

(** C4 fails on the code.  The listing is the one of the run before, a
    single knowledge base whose name is the empty string, and the registry is
    not empty (the socket of that knowledge base has been closed by the
    server).  The run is not skipped ("if KB names haven't changed, don't
    re-establish connections"): the joined names are the empty string, which
    the test takes for an empty listing, and the run opens a socket. *)
Lemma same_names_not_skipped :
  name <$> nameless = kbsNamesRef dropped
  ∧ wsConnectionsRef dropped ≠ ∅
  ∧ syncConnections false nameless dropped ≠ (dropped, [])
  ∧ (syncConnections false nameless dropped).2 = [Opened ""].
Proof.
  split; [reflexivity|]. split; [|split].
  - intros Hempty. apply (f_equal (fun m => m !! "")) in Hempty.
    vm_compute in Hempty. discriminate Hempty.
  - intros Heq. apply (f_equal snd) in Heq. vm_compute in Heq. discriminate Heq.
  - vm_compute. reflexivity.
Qed.

End RegistryExamples.

Module SessionExamples.
Import UseSolverSession Notions SessionSamples SessionFacts.



(** C7 fails on the code.  Two messages are added while the authoritative
    source is failing, both through the callback of the render in which the
    session was [chat "s1"].  The second call appends to the session that the
    callback has captured, not to the session in state: the session it
    leaves, in state and in the cache, has lost the first message, and the
    message count stays at the value the first call had reached. *)
Lemma second_offline_append_loses_first :
  let add := addMessage (session chatting) in
  let first := add user "why?" None FetchThrows "2024-01-01T00:05:00.000Z" chatting in
  let second :=
    add assistant "because" None FetchThrows "2024-01-01T00:06:00.000Z" first.1 in
  messages <$> session first.1 = Some [hello; why]
  ∧ message_count <$> session first.1 = Some 2
  ∧ messages <$> session second.1 = Some [hello; because]
  ∧ message_count <$> session second.1 = Some 2
  ∧ loadFromCache second.1 = session second.1.
Proof.
  cbv zeta. split; [|split; [|split; [|split]]]; vm_compute; reflexivity.
Qed.

(** Three saves at 0, 400 and 900 ms with a delay of one second: at 1900 ms
    one [PUT] has gone out, with the title of the third call. *)
Lemma debounce_collapses_calls_witness :
  requests (elapse 1900 (savesAt defaultDebounceMs ((0, chat "s1" "Limits") :: burst) idle))
  = [saveRequest (chat "s1" "Limits of sequences")].
Proof.
  apply (debounce_collapses_calls defaultDebounceMs (0, chat "s1" "Limits") burst 1900 idle).
  - reflexivity.
  - simpl. lia.
  - unfold defaultDebounceMs. simpl. lia.
  - unfold defaultDebounceMs. simpl. lia.
Defined.

(** C8 fails as stated: one call with a session that has no id; the timer
    fires and no write is issued. *)
Lemma save_without_id_writes_nothing :
  length (timers (savesAt defaultDebounceMs [(0, chat "" "Untitled")] idle)) = 1%nat
  ∧ timers (elapse 2000 (savesAt defaultDebounceMs [(0, chat "" "Untitled")] idle)) = []
  ∧ requests (elapse 2000 (savesAt defaultDebounceMs [(0, chat "" "Untitled")] idle)) = [].
Proof. repeat split; vm_compute; reflexivity. Qed.


End SessionExamples.

(** ** More worked examples *)

Module SessionMoreExamples.
Import UseSolverSession Notions SessionSamples.
Import SessionMoreFacts SessionInvariants SessionRoundTrips.

(** The store is empty and [fetch] throws: the session stays, the answer is
    [null]. *)
Lemma loadActiveSession_without_cache_witness :
  (loadActiveSession FetchThrows uncached).2 = None
  ∧ session (loadActiveSession FetchThrows uncached).1 = Some (chat "s1" "Limits")
  ∧ session (loadActiveSession (Response false JsonNull) uncached).1 = None.
Proof.
  destruct (loadActiveSession_without_cache FetchThrows uncached) as (Hres & Hthrow & _);
    [reflexivity | reflexivity |].
  destruct (loadActiveSession_without_cache (Response false JsonNull) uncached)
    as (_ & _ & Hreset); [reflexivity | reflexivity |].
  split; [exact Hres|]. split.
  - apply Hthrow. left. reflexivity.
  - apply Hreset; discriminate.
Defined.

Lemma cache_mirrors_session_witness : coherent (run evening chatting).
Proof.
  apply (cache_mirrors_session evening chatting). split.
  - reflexivity.
  - intros s Hs. injection Hs as <-. vm_compute. reflexivity.
Defined.

(** The marker was taken when the message had no [output_dir]; the session
    now holds the same message with [output_dir: null].  The texts differ, so
    the effect writes the session to the cache. *)
Lemma autoSaveEffect_tells_null_from_absent :
  let bare := {| role := user; content := "hello"; output_dir := DirAbsent;
                 timestamp := Some "2024-01-01T00:00:00.000Z" |} in
  let h := setLastMessages (JSON_stringify [bare])
             (setSession (Some (chat "s1" "Limits")) idle) in
  messages (chat "s1" "Limits") = [hello]
  ∧ JSON_stringify [bare] ≠ JSON_stringify [hello]
  ∧ loadFromCache h = None
  ∧ loadFromCache (autoSaveEffect true h) = Some (chat "s1" "Limits").
Proof.
  cbv zeta. split; [reflexivity|]. split; [|split].
  - vm_compute. discriminate.
  - reflexivity.
  - vm_compute. reflexivity.
Qed.

Lemma addMessage_then_autoSave_witness :
  ∃ s', session (autoSaveEffect true
                   (addMessage (session chatting) user "why?" None FetchThrows
                      "2024-01-01T00:05:00.000Z" chatting).1) = Some s'
        ∧ lastMessagesRef (autoSaveEffect true
                   (addMessage (session chatting) user "why?" None FetchThrows
                      "2024-01-01T00:05:00.000Z" chatting).1)
          = JSON_stringify (messages s').
Proof.
  destruct (addMessage_then_autoSave (session chatting) user "why?" None FetchThrows
              "2024-01-01T00:05:00.000Z" chatting (chat "s1" "Limits"))
    as (s' & Hsess & _ & Hmark & _).
  - reflexivity.
  - exists s'. split; assumption.
Defined.

Lemma offline_append_survives_reload_witness :
  (loadActiveSession (Response false JsonNull)
     (initialHook
        (localStorage (addMessage (Some (chat "s1" "Limits")) user "why?" None FetchThrows
                         "2024-01-01T00:05:00.000Z" chatting).1) 0)).2
  = Some (updatedSession (chat "s1" "Limits") user "why?" None "2024-01-01T00:05:00.000Z").
Proof.
  apply (offline_append_survives_reload user "why?" None FetchThrows
           (Response false JsonNull) "2024-01-01T00:05:00.000Z" 0 chatting
           (chat "s1" "Limits")); reflexivity.
Defined.

Lemma cleared_session_not_restored_witness :
  (loadActiveSession FetchThrows (clearSession chatting)).2 = None
  ∧ (loadActiveSession FetchThrows
       (deleteSession (Some (chat "s1" "Limits")) "s1" (Response true JsonNull)
          chatting).1).2 = None.
Proof.
  destruct (cleared_session_not_restored FetchThrows chatting) as [[Hclear _] Hdelete];
    [reflexivity|].
  split; [exact Hclear|].
  apply (Hdelete (chat "s1" "Limits") (Response true JsonNull)). reflexivity.
Defined.

(** Three saves 1001 and 1499 ms apart with a delay of one second: each one
    fires; the third session has no id and writes nothing. *)
Lemma spaced_saves_all_fire_witness :
  requests (elapse 3500 (savesAt defaultDebounceMs ((0, chat "s1" "Limits") :: apart) idle))
  = [saveRequest (chat "s1" "Limits"); saveRequest (chat "s1" "Limits of")].
Proof.
  apply (spaced_saves_all_fire defaultDebounceMs (0, chat "s1" "Limits") apart 3500 idle).
  - reflexivity.
  - simpl. lia.
  - unfold defaultDebounceMs. simpl. lia.
  - unfold defaultDebounceMs. simpl. lia.
Defined.

End SessionMoreExamples.

Module ProgressMoreExamples.
Import KnowledgePage Notions Samples.
Import ProgressMoreFacts RegistryMoreFacts.

#[local] Existing Instance isoDate.

Lemma restoreProgress_again_witness :
  restoreProgress (newYear + minutes 31) (restoreProgress (newYear + minutes 10) savedPage)
  = restoreProgress (newYear + minutes 31) savedPage.
Proof.
  apply (restoreProgress_again (newYear + minutes 10) (newYear + minutes 31) savedPage).
  vm_compute. discriminate.
Defined.

Lemma store_mirrors_progress_map_witness : mirrored (pageRun afternoon donePage).
Proof.
  apply (store_mirrors_progress_map afternoon donePage). split.
  - reflexivity.
  - vm_compute. reflexivity.
Defined.

Lemma mount_establishes_mirror_witness :
  mirrored (mount (newYear + minutes 31) (localStorage savedPage))
  ∧ progressMap (mount (newYear + minutes 31) (localStorage savedPage)) !! "stuck" = None.
Proof.
  destruct (mount_establishes_mirror (newYear + minutes 31) (localStorage savedPage))
    as (Hmirror & Hmap & _); [reflexivity|].
  split; [exact Hmirror|]. rewrite Hmap. vm_compute. reflexivity.
Defined.

(** From [tracked] to [changed]: the socket of [algebra] is closed, one is
    opened for [physics], and the names are those of the new listing. *)
Lemma sync_opens_missing_closes_untracked_witness :
  Opened "physics" ∈ (syncConnections false changed connected).2
  ∧ Closed "algebra" ∈ (syncConnections false changed connected).2.
Proof.
  destruct (sync_opens_missing_closes_untracked changed connected) as (Hopen & Hclose & _);
    [vm_compute; reflexivity|].
  split.
  - apply Hopen. split; [|split].
    + simpl. apply elem_of_cons. right. apply elem_of_cons. left. reflexivity.
    + intros (ws & Hws & _). vm_compute in Hws. discriminate Hws.
    + intros _. reflexivity.
  - apply Hclose. split.
    + intros Hin. simpl in Hin.
      apply elem_of_cons in Hin as [Heq|Hin]; [discriminate Heq|].
      apply elem_of_cons in Hin as [Heq|Hin]; [discriminate Heq|].
      inversion Hin.
    + exists algebraSocket. split; vm_compute; reflexivity.
Defined.

Lemma sync_reconciles_registry_witness :
  kbsNamesRef (syncConnections false changed connected).1 = ["math101"; "physics"].
Proof.
  destruct (sync_reconciles_registry changed connected) as (_ & _ & _ & Hnames & _);
    [vm_compute; reflexivity|].
  apply Hnames. discriminate.
Defined.

(** The listing [reordered] reports [algebra] as initialised; the socket of
    [algebra] stays the one created for the first listing. *)
Lemma sync_keeps_surviving_sockets_witness :
  wsConnectionsRef (syncConnections false reordered connected).1 !! "algebra"
  = Some algebraSocket.
Proof.
  apply (sync_keeps_surviving_sockets false reordered connected "algebra" algebraSocket).
  - vm_compute. reflexivity.
  - discriminate.
  - simpl. apply elem_of_cons. right. apply elem_of_cons. left. reflexivity.
Defined.

(** The first listing holds a knowledge base named [toString]: a socket is
    opened for [algebra], none for [toString]. *)
Lemma sync_on_empty_registry_witness :
  Opened "algebra" ∈ (syncConnections false methodNamed (initialPage emptyStore)).2
  ∧ Opened "toString" ∉ (syncConnections false methodNamed (initialPage emptyStore)).2.
Proof.
  destruct (sync_on_empty_registry methodNamed (initialPage emptyStore)) as [Hchar _];
    [reflexivity|].
  split.
  - apply Hchar. exists "algebra". split; [reflexivity|]. split; [|reflexivity].
    unfold methodNamed. simpl. apply elem_of_cons. right. apply elem_of_cons. left.
    reflexivity.
  - intros Hin. apply Hchar in Hin as (n & Heq & _ & Hown). injection Heq as <-.
    vm_compute in Hown. discriminate Hown.
Defined.

Lemma comma_joined_names_look_unchanged_witness :
  syncConnections false [kb "a" false; kb "b" false] commaPage = (commaPage, []).
Proof.
  apply (comma_joined_names_look_unchanged (kb "a" false) (kb "b" false) commaPage).
  - vm_compute. reflexivity.
  - intros Hempty. apply (f_equal (fun m => m !! "a,b")) in Hempty.
    vm_compute in Hempty. discriminate Hempty.
Defined.

End ProgressMoreExamples.

Module HistoryExamples.
Import SessionHistory SessionSamples HistoryFacts.

#[local] Existing Instance isoDate.

(** A session updated at new year, seen five minutes, five hours and five
    days later. *)
Lemma formatTimeAgo_thresholds_witness :
  formatTimeAgo sampleLocale (1704067200000 + 5 * 60000) "2024-01-01T00:00:00.000Z"
  = "5m ago"
  ∧ formatTimeAgo sampleLocale (1704067200000 + 5 * 3600000) "2024-01-01T00:00:00.000Z"
    = "5h ago"
  ∧ formatTimeAgo sampleLocale (1704067200000 + 5 * 86400000) "2024-01-01T00:00:00.000Z"
    = "5d ago".
Proof.
  destruct (formatTimeAgo_thresholds sampleLocale (1704067200000 + 5 * 60000)
              "2024-01-01T00:00:00.000Z") as [Hm _].
  destruct (formatTimeAgo_thresholds sampleLocale (1704067200000 + 5 * 3600000)
              "2024-01-01T00:00:00.000Z") as [Hh _].
  destruct (formatTimeAgo_thresholds sampleLocale (1704067200000 + 5 * 86400000)
              "2024-01-01T00:00:00.000Z") as [Hd _].
  destruct (Hm 1704067200000) as (_ & Hmin & _); [vm_compute; reflexivity|].
  destruct (Hh 1704067200000) as (_ & _ & Hhour & _); [vm_compute; reflexivity|].
  destruct (Hd 1704067200000) as (_ & _ & _ & Hday & _); [vm_compute; reflexivity|].
  split; [|split].
  - destruct Hmin as [Heq _]; [lia|]. rewrite Heq. vm_compute. reflexivity.
  - destruct Hhour as [Heq _]; [lia|]. rewrite Heq. vm_compute. reflexivity.
  - destruct Hday as [Heq _]; [lia|]. rewrite Heq. vm_compute. reflexivity.
Defined.

End HistoryExamples.
